(** * chess-bot: the polling and notification engine of [chess-bot.py]

    A shallow embedding of the Telegram bot that polls lichess for the
    current game of each monitored player.  The module-level dictionary
    [dados], the state file, the HTTP client and the Telegram API are
    threaded through a small state-and-exception monad; every handler of
    the source is a computation in that monad.

    Conventions of the embedding:
    - Python [str] is [string] (a byte sequence; the literals keep their
      UTF-8 bytes).  [str.lower] and [str.capitalize] act on the ASCII
      letters, which covers lichess user names and speed labels.
    - [dados] is read as a record: a key that is absent from the
      dictionary reads as the default every [dados.get] of the source
      supplies for it.
    - The state file and the lichess payload follow the schema of their
      producers: arrays of strings, an integer or null chat id, string
      fields in the game document.
    - [json.dump] / [json.load] are the identity on such documents. *)

From Stdlib Require Import ZArith Ascii String List Lia.
From stdpp Require Import base decidable option list strings pretty gmap.

Open Scope string_scope.
Open Scope list_scope.
Open Scope Z_scope.

(** ** Strings *)

Definition is_upper (c : ascii) : bool :=
  ((65 <=? nat_of_ascii c) && (nat_of_ascii c <=? 90))%nat.

Definition is_lower (c : ascii) : bool :=
  ((97 <=? nat_of_ascii c) && (nat_of_ascii c <=? 122))%nat.

Definition lower_char (c : ascii) : ascii :=
  if is_upper c then ascii_of_nat (nat_of_ascii c + 32) else c.

Definition upper_char (c : ascii) : ascii :=
  if is_lower c then ascii_of_nat (nat_of_ascii c - 32) else c.

(** [s.lower()] *)
Fixpoint str_lower (s : string) : string :=
  match s with
  | EmptyString => EmptyString
  | String c r => String (lower_char c) (str_lower r)
  end.

(** [s.capitalize()]: first character upper-cased, the rest lower-cased. *)
Definition str_capitalize (s : string) : string :=
  match s with
  | EmptyString => EmptyString
  | String c r => String (upper_char c) (str_lower r)
  end.

(** [sep.join(l)] *)
Fixpoint str_join (sep : string) (l : list string) : string :=
  match l with
  | [] => ""
  | [x] => x
  | x :: r => x +:+ sep +:+ str_join sep r
  end.

(** [sub] occurs in [s] as a contiguous substring. *)
Definition occurs_in (sub s : string) : Prop :=
  ∃ pre post, s = pre +:+ sub +:+ post.

(** ** Data model *)

(** The dictionary [dados]. *)
Record Dados := mkDados {
  gms_a_monitorar : list string;
  partidas_notificadas : gset string;
  ritmos_permitidos : list string;
  chat_id : option Z
}.

(** The JSON document of [data_bot.json]: the dedup set is an array. *)
Record Arquivo := mkArquivo {
  arq_gms_a_monitorar : list string;
  arq_partidas_notificadas : list string;
  arq_ritmos_permitidos : list string;
  arq_chat_id : option Z
}.

(** The game document of [/api/user/<name>/current-game], reduced to what
    the bot reads.  [None] is an absent key. *)
Record Partida := mkPartida {
  pt_id : option string;                   (* partida.get('id') *)
  pt_opponent : option (option string);    (* 'opponent' in partida; its .get('username') *)
  pt_speed : option string;                (* partida.get('speed') *)
  pt_white_name : option string            (* partida['players']['white']['user']['name'] *)
}.

(** An HTTP response; [json = None] when [response.json()] raises. *)
Record Response := mkResponse {
  status_code : Z;
  json : option Partida
}.

Inductive exn :=
| HTTPError
| JSONDecodeError
| KeyError
| TelegramError.

Inductive log_record :=
| LInfo (msg : string)
| LWarning (msg : string)
| LError (msg : string) (e : exn).

(** The outside world during one handler run.  Every external call ticks
    a clock, and the world answers as a function of the clock, so that
    two calls with the same arguments may be answered differently. *)
Record World := mkWorld {
  (* client.get(url): None when the request raises *)
  client_get : nat → string → option Response;
  (* context.bot.send_message: false when the call raises *)
  bot_send_message : nat → Z → string → bool;
  (* list(a_set): the iteration order of a Python set *)
  list_of_set : gset string → list string;
  (* NOME_ARQUIVO_DADOS *)
  NOME_ARQUIVO_DADOS : string
}.

(** [list(s)] enumerates the elements of [s], each once. *)
Definition enumerates (f : gset string → list string) : Prop :=
  ∀ s, NoDup (f s) ∧ ∀ x, x ∈ f s ↔ x ∈ s.

(** The process state together with the observable effects so far. *)
Record State := mkState {
  dados : Dados;
  arquivo : option Arquivo;                     (* None: the file does not exist *)
  clock : nat;
  requests : list (string * option Response);   (* client.get calls and their answers *)
  sends : list (Z * string * bool);             (* send_message calls; false: it raised *)
  replies : list string;                        (* update.message.reply_* calls *)
  log : list log_record;
  jogos_encontrados : nat                       (* local counter of verificar_agora *)
}.

Definition with_dados (d : Dados) (s : State) : State :=
  mkState d (arquivo s) (clock s) (requests s) (sends s) (replies s) (log s)
          (jogos_encontrados s).

Definition with_arquivo (a : option Arquivo) (s : State) : State :=
  mkState (dados s) a (clock s) (requests s) (sends s) (replies s) (log s)
          (jogos_encontrados s).

Definition with_log (l : list log_record) (s : State) : State :=
  mkState (dados s) (arquivo s) (clock s) (requests s) (sends s) (replies s) l
          (jogos_encontrados s).

Definition with_replies (r : list string) (s : State) : State :=
  mkState (dados s) (arquivo s) (clock s) (requests s) (sends s) r (log s)
          (jogos_encontrados s).

Definition with_jogos (n : nat) (s : State) : State :=
  mkState (dados s) (arquivo s) (clock s) (requests s) (sends s) (replies s) (log s) n.

(** ** The monad: state, exceptions and [continue] *)

Inductive res (A : Type) :=
| Val (a : A)
| Continue
| Raise (e : exn).
Arguments Val {A} a.
Arguments Continue {A}.
Arguments Raise {A} e.

Definition M (A : Type) : Type := State → res A * State.

Definition ret {A} (a : A) : M A := λ s, (Val a, s).

Definition bind {A B} (m : M A) (k : A → M B) : M B :=
  λ s, match m s with
       | (Val a, s') => k a s'
       | (Continue, s') => (Continue, s')
       | (Raise e, s') => (Raise e, s')
       end.

Declare Scope bot_scope.
Delimit Scope bot_scope with bot.
Notation "x <~ m ; k" := (bind m (λ x, k))
  (at level 100, m at next level, right associativity) : bot_scope.
Notation "m ;; k" := (bind m (λ _, k))
  (at level 100, right associativity) : bot_scope.
Open Scope bot_scope.

Definition raise {A} (e : exn) : M A := λ s, (Raise e, s).
Definition continue {A} : M A := λ s, (Continue, s).
Definition pass : M unit := ret tt.

Definition get_dados : M Dados := λ s, (Val (dados s), s).
Definition put_dados (d : Dados) : M unit := λ s, (Val tt, with_dados d s).

(** [try: body except Exception as e: handler e]; [continue] leaves it. *)
Definition try_except {A} (body : M A) (handler : exn → M A) : M A :=
  λ s, match body s with
       | (Raise e, s') => handler e s'
       | r => r
       end.

(** [for x in l: body x].  [continue] ends the current iteration only; an
    exception that leaves the body leaves the loop. *)
Fixpoint for_in {A} (l : list A) (body : A → M unit) : M unit :=
  match l with
  | [] => ret tt
  | x :: l' =>
      λ s, match body x s with
           | (Val _, s') | (Continue, s') => for_in l' body s'
           | (Raise e, s') => (Raise e, s')
           end
  end.

Definition logger (r : log_record) : M unit :=
  λ s, (Val tt, with_log (log s ++ [r]) s).

(** [update.message.reply_text] / [reply_markdown]; the delivery of a
    reply is not a failure point of the model. *)
Definition reply_text (t : string) : M unit :=
  λ s, (Val tt, with_replies (replies s ++ [t]) s).

(** ** Python truthiness and small helpers *)

Definition truthy_list {A} (l : list A) : bool :=
  match l with [] => false | _ => true end.

Definition truthy_str (s : string) : bool :=
  match s with EmptyString => false | _ => true end.

(** [not chat_id]: [None] and [0] are falsy. *)
Definition truthy_chat (c : option Z) : bool :=
  match c with
  | None | Some 0 => false
  | Some _ => true
  end.

(** [x in l] on a list of strings. *)
Definition str_in (x : string) (l : list string) : bool := bool_decide (x ∈ l).

(** [l.remove(x)]: drops the first occurrence. *)
Fixpoint list_remove (x : string) (l : list string) : list string :=
  match l with
  | [] => []
  | y :: r => if decide (y = x) then r else y :: list_remove x r
  end.

Definition nl : string := String (ascii_of_nat 10) EmptyString.

Definition ritmos_validos : list string := ["bullet"; "blitz"; "rapid"; "classical"].

Definition dados_iniciais : Dados :=
  mkDados ["magnuscarlsen"; "hikaru"] ∅ [] None.

(** ** The source functions *)

Section Bot.

Variable w : World.

(** *** Effects *)

(** [await client.get(url, headers=headers)] *)
Definition http_get (url : string) : M Response :=
  λ s, let r := client_get w (clock s) url in
       let s' := mkState (dados s) (arquivo s) (S (clock s))
                         (requests s ++ [(url, r)]) (sends s) (replies s) (log s)
                         (jogos_encontrados s) in
       match r with
       | Some resp => (Val resp, s')
       | None => (Raise HTTPError, s')
       end.

(** [response.json()] *)
Definition response_json (r : Response) : M Partida :=
  match json r with
  | Some p => ret p
  | None => raise JSONDecodeError
  end.

(** [await context.bot.send_message(chat_id=..., text=..., parse_mode='Markdown')] *)
Definition send_message (chat : Z) (text : string) : M unit :=
  λ s, if bot_send_message w (clock s) chat text
       then (Val tt, mkState (dados s) (arquivo s) (S (clock s)) (requests s)
                             (sends s ++ [(chat, text, true)]) (replies s) (log s)
                             (jogos_encontrados s))
       else (Raise TelegramError,
             mkState (dados s) (arquivo s) (S (clock s)) (requests s)
                     (sends s ++ [(chat, text, false)]) (replies s) (log s)
                     (jogos_encontrados s)).

(** *** Persistence *)

Definition dados_para_salvar (d : Dados) : Arquivo :=
  mkArquivo (gms_a_monitorar d)
            (list_of_set w (partidas_notificadas d))
            (ritmos_permitidos d)
            (chat_id d).

Definition salvar_dados : M unit :=
  (λ s, (Val tt, with_arquivo (Some (dados_para_salvar (dados s))) s)) ;;
  logger (LInfo "Dados salvos com sucesso!").

Definition dados_carregados (a : Arquivo) : Dados :=
  mkDados (arq_gms_a_monitorar a)
          (list_to_set (arq_partidas_notificadas a))
          (arq_ritmos_permitidos a)
          (arq_chat_id a).

Definition carregar_dados : M unit :=
  λ s, match arquivo s with
       | Some a =>
           (put_dados (dados_carregados a) ;;
            logger (LInfo ("Dados carregados do arquivo " +:+ NOME_ARQUIVO_DADOS w +:+ "."))) s
       | None =>
           (put_dados dados_iniciais ;;
            salvar_dados ;;
            logger (LInfo ("Nenhum arquivo de dados encontrado. Um novo ('"
                           +:+ NOME_ARQUIVO_DADOS w +:+ "') foi criado."))) s
       end.

(** [dados['partidas_notificadas'].add(id_partida)] *)
Definition partidas_notificadas_add (id_partida : string) : M unit :=
  λ s, let d := dados s in
       (Val tt, with_dados (mkDados (gms_a_monitorar d)
                                    ({[id_partida]} ∪ partidas_notificadas d)
                                    (ritmos_permitidos d) (chat_id d)) s).

(** Lines 95-96: the id joins the dedup set and the state is saved. *)
Definition marcar_notificada (id_partida : string) : M unit :=
  partidas_notificadas_add id_partida ;;
  salvar_dados.

(** *** The scheduled poll cycle *)

Definition url_current_game (gm_username : string) : string :=
  "https://lichess.org/api/user/" +:+ gm_username +:+ "/current-game".

Definition link_da_partida (id_partida : string) : string :=
  "https://lichess.org/" +:+ id_partida.

Definition mensagem_automatica
    (gm_username oponente ritmo_partida cor link_partida : string) : string :=
  "📢 *GM " +:+ str_capitalize gm_username +:+ " está jogando!* 📢" +:+ nl +:+ nl +:+
  "⚔️ *Oponente:* " +:+ oponente +:+ nl +:+
  "⌛ *Ritmo:* " +:+ str_capitalize ritmo_partida +:+ nl +:+
  "🎨 *Cor:* " +:+ cor +:+ nl +:+ nl +:+
  "🔗 [Ver partida ao vivo](" +:+ link_partida +:+ ")".

(** The body of the [try] of [verificar_partidas] for one player. *)
Definition verificar_partidas_gm (chat : Z) (gm_username : string) : M unit :=
  let url := url_current_game gm_username in
  response <~ http_get url ;
  if status_code response =? 200 then
    partida <~ response_json response ;
    match pt_id partida, pt_opponent partida with
    | Some id_partida, Some opponent =>
        if negb (truthy_str id_partida) then continue else
        let ritmo_partida := str_lower (default "" (pt_speed partida)) in
        d <~ get_dados ;
        let ritmos := ritmos_permitidos d in
        if truthy_list ritmos && negb (str_in ritmo_partida ritmos) then continue else
        d <~ get_dados ;
        if bool_decide (id_partida ∈ partidas_notificadas d) then continue else
        let oponente := default "Desconhecido" opponent in
        white <~ match pt_white_name partida with
                 | Some n => ret n
                 | None => raise KeyError
                 end ;
        let cor := if String.eqb (str_lower white) gm_username
                   then "Brancas" else "Negras" in
        let link_partida := link_da_partida id_partida in
        let mensagem :=
          mensagem_automatica gm_username oponente ritmo_partida cor link_partida in
        send_message chat mensagem ;;
        marcar_notificada id_partida
    | _, _ => continue
    end
  else pass.

(** One iteration of the loop: the [try] statement of lines 72-98. *)
Definition verificar_partidas_iter (chat : Z) (gm_username : string) : M unit :=
  try_except
    (verificar_partidas_gm chat gm_username)
    (λ e, logger (LError ("Erro ao verificar " +:+ gm_username) e)).

Definition verificar_partidas : M unit :=
  d <~ get_dados ;
  match chat_id d with
  | None | Some 0 =>
      logger (LWarning "Notificação automática pulada: Chat ID não configurado. Use /start.")
  | Some chat =>
      logger (LInfo "Iniciando verificação de partidas...") ;;
      for_in (gms_a_monitorar d) (verificar_partidas_iter chat)
  end.

(** *** The commands *)

Definition start (effective_chat_id : Z) : M unit :=
  d <~ get_dados ;
  put_dados (mkDados (gms_a_monitorar d) (partidas_notificadas d)
                     (ritmos_permitidos d) (Some effective_chat_id)) ;;
  salvar_dados ;;
  reply_text ("Olá! Sou seu bot de monitoramento de Xadrez." +:+ nl +:+
              "Use o comando /ajuda para ver o que posso fazer.") ;;
  logger (LInfo ("Bot iniciado/atualizado no chat " +:+ pretty effective_chat_id)).

Definition texto_ajuda : string :=
  "Aqui estão os comandos que você pode usar:" +:+ nl +:+ nl +:+
  "*/verificar* - Verifica imediatamente se alguém está jogando." +:+ nl +:+
  "*/listar_gms* - Mostra a lista de GMs monitorados." +:+ nl +:+
  "*/adicionargm <username>* - Adiciona um GM à lista." +:+ nl +:+
  "*/removergm <username>* - Remove um GM da lista." +:+ nl +:+
  "*/filtroritmo <ritmo...>* - Define um filtro de ritmo." +:+ nl +:+
  "*/filtroritmo ver* - Mostra o filtro atual." +:+ nl +:+
  "*/filtroritmo todos* - Remove todos os filtros." +:+ nl +:+
  "*/ajuda* - Mostra esta mensagem de ajuda.".

Definition ajuda : M unit := reply_text texto_ajuda.

Definition mensagem_manual (gm_username oponente ritmo_partida link_partida : string)
  : string :=
  "✅ *" +:+ str_capitalize gm_username +:+ "* está jogando agora!" +:+ nl +:+
  "Oponente: " +:+ oponente +:+ nl +:+
  "Ritmo: " +:+ ritmo_partida +:+ nl +:+
  "🔗 [Ver partida](" +:+ link_partida +:+ ")".

Definition jogos_encontrados_incr : M unit :=
  λ s, (Val tt, with_jogos (S (jogos_encontrados s)) s).

(** The body of the [try] of [verificar_agora] for one player. *)
Definition verificar_agora_gm (chat : Z) (gm_username : string) : M unit :=
  let url := url_current_game gm_username in
  response <~ http_get url ;
  if status_code response =? 200 then
    jogos_encontrados_incr ;;
    partida <~ response_json response ;
    match pt_id partida, pt_opponent partida with
    | Some id_partida, Some opponent =>
        if negb (truthy_str id_partida) then continue else
        let oponente := default "Desconhecido" opponent in
        let ritmo_partida := str_capitalize (default "Desconhecido" (pt_speed partida)) in
        let link_partida := link_da_partida id_partida in
        let mensagem := mensagem_manual gm_username oponente ritmo_partida link_partida in
        send_message chat mensagem
    | _, _ => continue
    end
  else pass.

(** One iteration of the loop: the [try] statement of lines 133-153. *)
Definition verificar_agora_iter (chat : Z) (gm_username : string) : M unit :=
  try_except
    (verificar_agora_gm chat gm_username)
    (λ e, logger (LError ("Erro na verificação manual de " +:+ gm_username) e)).

Definition msg_ninguem : string :=
  "Verifiquei toda a lista. Ninguém está jogando no momento.".

Definition verificar_agora : M unit :=
  reply_text "Verificando os GMs, um momento..." ;;
  d <~ get_dados ;
  match chat_id d with
  | None | Some 0 =>
      reply_text "Por favor, use /start primeiro para eu saber quem você é."
  | Some chat =>
      (λ s, (Val tt, with_jogos 0 s)) ;;
      for_in (gms_a_monitorar d) (verificar_agora_iter chat) ;;
      (λ s, if (jogos_encontrados s =? 0)%nat then reply_text msg_ninguem s
            else (Val tt, s))
  end.

Definition listar_gms : M unit :=
  d <~ get_dados ;
  if truthy_list (gms_a_monitorar d) then
    let lista_gms := str_join nl (map (λ gm, "- `" +:+ gm +:+ "`") (gms_a_monitorar d)) in
    reply_text ("Estou monitorando os seguintes GMs:" +:+ nl +:+ lista_gms)
  else reply_text "A lista de monitoramento está vazia.".

Definition adicionar_gm (args : list string) : M unit :=
  match args with
  | [] => reply_text "Uso: /adicionargm <username>"
  | arg0 :: _ =>
      let gm_username := str_lower arg0 in
      d <~ get_dados ;
      if str_in gm_username (gms_a_monitorar d) then
        reply_text (str_capitalize gm_username +:+ " já está na lista.")
      else
        put_dados (mkDados (gms_a_monitorar d ++ [gm_username]) (partidas_notificadas d)
                           (ritmos_permitidos d) (chat_id d)) ;;
        salvar_dados ;;
        reply_text (str_capitalize gm_username +:+ " foi adicionado!")
  end.

Definition remover_gm (args : list string) : M unit :=
  match args with
  | [] => reply_text "Uso: /removergm <username>"
  | arg0 :: _ =>
      let gm_username := str_lower arg0 in
      d <~ get_dados ;
      if str_in gm_username (gms_a_monitorar d) then
        put_dados (mkDados (list_remove gm_username (gms_a_monitorar d))
                           (partidas_notificadas d) (ritmos_permitidos d) (chat_id d)) ;;
        salvar_dados ;;
        reply_text (str_capitalize gm_username +:+ " foi removido.")
      else
        reply_text ("Não encontrei " +:+ str_capitalize gm_username +:+ " na lista.")
  end.

Definition msg_nenhum_ritmo : string := "Nenhum ritmo válido encontrado.".

(** [[r.lower() for r in context.args if r.lower() in ritmos_validos]] *)
Definition novos_ritmos_de (args : list string) : list string :=
  map str_lower (filter (λ r, str_lower r ∈ ritmos_validos) args).

(** Lines 203-210: the branch of [filtro_ritmo] that sets the filter. *)
Definition definir_filtro_ritmo (args : list string) : M unit :=
  let novos_ritmos := novos_ritmos_de args in
  if truthy_list novos_ritmos then
    d <~ get_dados ;
    put_dados (mkDados (gms_a_monitorar d) (partidas_notificadas d)
                       novos_ritmos (chat_id d)) ;;
    salvar_dados ;;
    reply_text ("Filtro de ritmo atualizado para: " +:+ str_join ", " novos_ritmos)
  else reply_text msg_nenhum_ritmo.

Definition filtro_ritmo (args : list string) : M unit :=
  match args with
  | [] => reply_text "Uso: /filtroritmo <ritmo1> ou ver/todos"
  | arg0 :: _ =>
      let primeiro_arg := str_lower arg0 in
      if String.eqb primeiro_arg "ver" then
        d <~ get_dados ;
        if truthy_list (ritmos_permitidos d) then
          reply_text ("Filtro atual: " +:+ str_join ", " (ritmos_permitidos d))
        else reply_text "Nenhum filtro de ritmo ativo."
      else if String.eqb primeiro_arg "todos" then
        d <~ get_dados ;
        put_dados (mkDados (gms_a_monitorar d) (partidas_notificadas d) [] (chat_id d)) ;;
        salvar_dados ;;
        reply_text "Filtro de ritmo removido."
      else
        definir_filtro_ritmo args
  end.

(** *** The running bot

    [run_telegram_bot] loads the state, registers the command handlers
    and schedules [verificar_partidas]; afterwards the bot reacts to a
    sequence of updates and timer firings. *)

Inductive Update :=
| CmdStart (effective_chat_id : Z)
| CmdAjuda
| CmdVerificar
| CmdListarGms
| CmdAdicionarGm (args : list string)
| CmdRemoverGm (args : list string)
| CmdFiltroRitmo (args : list string)
| JobVerificarPartidas.

Definition handle (u : Update) : M unit :=
  match u with
  | CmdStart c => start c
  | CmdAjuda => ajuda
  | CmdVerificar => verificar_agora
  | CmdListarGms => listar_gms
  | CmdAdicionarGm args => adicionar_gm args
  | CmdRemoverGm args => remover_gm args
  | CmdFiltroRitmo args => filtro_ritmo args
  | JobVerificarPartidas => verificar_partidas
  end.

Definition run_telegram_bot (updates : list Update) : M unit :=
  carregar_dados ;;
  for_in updates handle.

End Bot.

(** ** Vocabulary of the statements *)

(** The final state of a computation. *)
Definition exec {A} (m : M A) (s : State) : State := snd (m s).

(** The response signals an active game: HTTP 200. *)
Definition is_200 (r : option Response) : bool :=
  match r with
  | Some resp => status_code resp =? 200
  | None => false
  end.

(** A game document without a usable id or without the opponent field. *)
Definition malformada (p : Partida) : bool :=
  match pt_id p, pt_opponent p with
  | Some id_partida, Some _ => negb (truthy_str id_partida)
  | _, _ => true
  end.

(** A 200 response whose document is malformed. *)
Definition resposta_malformada (r : option Response) : bool :=
  match r with
  | Some resp =>
      (status_code resp =? 200) &&
      match json resp with Some p => malformada p | None => false end
  | None => false
  end.

(** [dados] with another speed filter / another dedup set. *)
Definition com_ritmos (r : list string) (d : Dados) : Dados :=
  mkDados (gms_a_monitorar d) (partidas_notificadas d) r (chat_id d).

Definition com_partidas (n : gset string) (d : Dados) : Dados :=
  mkDados (gms_a_monitorar d) n (ritmos_permitidos d) (chat_id d).

(** The arguments of [/filtroritmo] start with one of its sub-commands. *)
Definition subcomando (args : list string) : bool :=
  match args with
  | arg0 :: _ => String.eqb (str_lower arg0) "ver" || String.eqb (str_lower arg0) "todos"
  | [] => false
  end.

(** The speed test of line 82: [true] when the game passes the filter. *)
Definition ritmo_permitido (ritmos : list string) (ritmo_partida : string) : bool :=
  negb (truthy_list ritmos && negb (str_in ritmo_partida ritmos)).

(** [text] is a notification about game [id_partida]: it carries its link. *)
Definition notifica (id_partida : string) (send : Z * string * bool) : Prop :=
  occurs_in (link_da_partida id_partida) send.1.2.

(** The state after the request for [gm_username] was answered. *)
Definition apos_get (w : World) (gm_username : string) (s : State) : State :=
  mkState (dados s) (arquivo s) (S (clock s))
          (requests s ++ [(url_current_game gm_username,
                           client_get w (clock s) (url_current_game gm_username))])
          (sends s) (replies s) (log s) (jogos_encontrados s).

(** The state after a [send_message] call that returned ([ok]) or raised. *)
Definition apos_send (chat : Z) (text : string) (ok : bool) (s : State) : State :=
  mkState (dados s) (arquivo s) (S (clock s)) (requests s)
          (sends s ++ [(chat, text, ok)]) (replies s) (log s) (jogos_encontrados s).

Definition apos_log (r : log_record) (s : State) : State :=
  with_log (log s ++ [r]) s.

(** The state after [marcar_notificada]. *)
Definition apos_marcar (w : World) (id_partida : string) (s : State) : State :=
  let d := com_partidas ({[id_partida]} ∪ partidas_notificadas (dados s)) (dados s) in
  apos_log (LInfo "Dados salvos com sucesso!")
           (with_arquivo (Some (dados_para_salvar w d)) (with_dados d s)).

(** The colour line 85 computes. *)
Definition cor_de (white gm_username : string) : string :=
  if String.eqb (str_lower white) gm_username then "Brancas" else "Negras".

(** The notification of the scheduled cycle for a game document. *)
Definition mensagem_de (gm_username : string) (p : Partida) (id_partida : string)
    (opponent : option string) (white : string) : string :=
  mensagem_automatica gm_username (default "Desconhecido" opponent)
    (str_lower (default "" (pt_speed p))) (cor_de white gm_username)
    (link_da_partida id_partida).

(** The message of the manual check for a game document. *)
Definition mensagem_manual_de (gm_username : string) (p : Partida) (id_partida : string)
    (opponent : option string) : string :=
  mensagem_manual gm_username (default "Desconhecido" opponent)
    (str_capitalize (default "Desconhecido" (pt_speed p)))
    (link_da_partida id_partida).

(** The delivered sends among [l]. *)
Definition entregues (l : list (Z * string * bool)) : list (Z * string * bool) :=
  filter (λ x, x.2 = true) l.

(** What one iteration of the scheduled cycle may do to the state [s]:
    nothing beyond the request, a send that raised, or a delivered
    notification followed by the marking of its game. *)
Inductive iter_outcome (w : World) (chat : Z) (gm : string) (s st : State) : Prop :=
| IterQuiet :
    dados st = dados s → arquivo st = arquivo s → sends st = sends s →
    iter_outcome w chat gm s st
| IterSendFailed p id_partida opponent white :
    dados st = dados s → arquivo st = arquivo s →
    sends st = sends s ++ [(chat, mensagem_de gm p id_partida opponent white, false)] →
    iter_outcome w chat gm s st
| IterNotified p id_partida opponent white :
    id_partida ∉ partidas_notificadas (dados s) →
    dados st = com_partidas ({[id_partida]} ∪ partidas_notificadas (dados s)) (dados s) →
    arquivo st = Some (dados_para_salvar w (dados st)) →
    sends st = sends s ++ [(chat, mensagem_de gm p id_partida opponent white, true)] →
    iter_outcome w chat gm s st.

(** A send of the scheduled cycle: a notification addressed to [chat]. *)
Definition send_de_notificacao (chat : Z) (x : Z * string * bool) : Prop :=
  x.1.1 = chat ∧ ∃ gm p id_partida opponent white,
    x.1.2 = mensagem_de gm p id_partida opponent white.

(** What a run of the loop of the scheduled cycle over [gms] does:
    [ids] are the games marked, in order, and [news] the sends made. *)
Definition ciclo_post (chat : Z) (gms : list string) (s st : State)
    (ids : list string) (news : list (Z * string * bool)) : Prop :=
  map fst (requests st) = map fst (requests s) ++ map url_current_game gms ∧
  replies st = replies s ∧
  jogos_encontrados st = jogos_encontrados s ∧
  dados st = com_partidas (list_to_set ids ∪ partidas_notificadas (dados s)) (dados s) ∧
  sends st = sends s ++ news ∧
  NoDup ids ∧
  Forall (λ i, i ∉ partidas_notificadas (dados s)) ids ∧
  Forall2 notifica ids (entregues news) ∧
  Forall (send_de_notificacao chat) news.

(** Two states that differ at most in the speed filter, and there only in
    the order and the multiplicity of its entries (and in the state file,
    which the checks never read). *)
Definition mesmo_filtro (s1 s2 : State) : Prop :=
  com_ritmos [] (dados s1) = com_ritmos [] (dados s2) ∧
  (∀ r, r ∈ ritmos_permitidos (dados s1) ↔ r ∈ ritmos_permitidos (dados s2)) ∧
  clock s1 = clock s2 ∧ requests s1 = requests s2 ∧ sends s1 = sends s2 ∧
  replies s1 = replies s2 ∧ log s1 = log s2 ∧
  jogos_encontrados s1 = jogos_encontrados s2.

(** [jogos_encontrados += 1] *)
Definition apos_incr (s : State) : State := with_jogos (S (jogos_encontrados s)) s.

(** A 200 response with a decodable, well-formed game document: the manual
    check sends a message for it. *)
Definition bem_formada (r : option Response) : bool :=
  match r with
  | Some resp =>
      (status_code resp =? 200) &&
      match json resp with Some p => negb (malformada p) | None => false end
  | None => false
  end.

(** ** Example data: the scenario of the specification

    Player [alice] is monitored, chat 42 is registered, and lichess
    answers every request with game [g1], a blitz game of alice (white)
    against bob. *)

Definition ex_partida : Partida :=
  mkPartida (Some "g1") (Some (Some "bob")) (Some "blitz") (Some "alice").

Definition ex_world : World :=
  mkWorld (λ _ _, Some (mkResponse 200 (Some ex_partida)))
          (λ _ _ _, true)
          elements
          "./data_bot.json".

(** The first request of a run raises, later ones are answered. *)
Definition ex_world_falha : World :=
  mkWorld (λ t _, match t with O => None | _ => Some (mkResponse 200 (Some ex_partida)) end)
          (λ _ _ _, true)
          elements
          "./data_bot.json".

(** Every answer is a 200 with a document that has neither id nor opponent. *)
Definition ex_world_malformada : World :=
  mkWorld (λ _ _, Some (mkResponse 200 (Some (mkPartida None None (Some "blitz") None))))
          (λ _ _ _, true)
          elements
          "./data_bot.json".

Definition ex_state (d : Dados) : State := mkState d None 0 [] [] [] [] 0.

Definition ex_dados : Dados := mkDados ["alice"] ∅ [] (Some 42).

(** Two monitored players. *)
Definition ex_dados_dois : Dados := mkDados ["bob"; "alice"] ∅ [] (Some 42).

(** A configuration with two games already notified. *)
Definition ex_dados_notificado : Dados :=
  mkDados ["alice"] ({["g1"]} ∪ {["g2"]}) ["blitz"] (Some 42).

(** The same configuration with a speed filter that excludes blitz. *)
Definition ex_dados_bullet : Dados := mkDados ["alice"] ∅ ["bullet"] (Some 42).

(** What the loop of the manual check does over [gms]: [reqs] are the
    requests made with their answers and [news] the sends. *)
Definition agora_post (chat : Z) (gms : list string) (s st : State)
    (reqs : list (string * option Response)) (news : list (Z * string * bool)) : Prop :=
  requests st = requests s ++ reqs ∧
  map fst reqs = map url_current_game gms ∧
  sends st = sends s ++ news ∧
  dados st = dados s ∧ arquivo st = arquivo s ∧ replies st = replies s ∧
  jogos_encontrados st =
    (jogos_encontrados s + length (filter (λ r, is_200 r.2 = true) reqs))%nat ∧
  length news = length (filter (λ r, bem_formada r.2 = true) reqs) ∧
  Forall (λ x, x.1.1 = chat) news.

(** ** Vocabulary of the further properties *)

(** The monitored list holds lower-case names, each once. *)
Definition lista_normalizada (gms : list string) : Prop :=
  NoDup gms ∧ Forall (λ g, str_lower g = g) gms.

(** The speed filter only holds speeds the command accepts. *)
Definition filtro_valido (ritmos : list string) : Prop :=
  Forall (λ r, r ∈ ritmos_validos) ritmos.

(** The state file is up to date: loading it gives the [dados] in memory. *)
Definition arquivo_em_dia (s : State) : Prop :=
  dados_carregados <$> arquivo s = Some (dados s).

(** How a handler may have changed [dados]. *)
Inductive edicao (d d' : Dados) : Prop :=
| EdChat c :
    d' = mkDados (gms_a_monitorar d) (partidas_notificadas d) (ritmos_permitidos d)
                 (Some c) →
    edicao d d'
| EdAdicionar g :
    str_lower g = g → g ∉ gms_a_monitorar d →
    d' = mkDados (gms_a_monitorar d ++ [g]) (partidas_notificadas d)
                 (ritmos_permitidos d) (chat_id d) →
    edicao d d'
| EdRemover g :
    g ∈ gms_a_monitorar d →
    d' = mkDados (list_remove g (gms_a_monitorar d)) (partidas_notificadas d)
                 (ritmos_permitidos d) (chat_id d) →
    edicao d d'
| EdFiltro r :
    filtro_valido r →
    d' = com_ritmos r d →
    edicao d d'
| EdPartidas novas :
    d' = com_partidas (novas ∪ partidas_notificadas d) d →
    edicao d d'.

(** A game document of alice without the white player's name. *)
Definition ex_partida_sem_brancas : Partida :=
  mkPartida (Some "g1") (Some (Some "bob")) (Some "blitz") None.

Definition ex_world_sem_brancas : World :=
  mkWorld (λ _ _, Some (mkResponse 200 (Some ex_partida_sem_brancas)))
          (λ _ _ _, true)
          elements
          "./data_bot.json".

(** A game document without the speed. *)
Definition ex_partida_sem_ritmo : Partida :=
  mkPartida (Some "g1") (Some (Some "bob")) None (Some "alice").

Definition ex_world_sem_ritmo : World :=
  mkWorld (λ _ _, Some (mkResponse 200 (Some ex_partida_sem_ritmo)))
          (λ _ _ _, true)
          elements
          "./data_bot.json".

(** The first [send_message] of a run raises, later ones are delivered. *)
Definition ex_world_envio_falha : World :=
  mkWorld (λ _ _, Some (mkResponse 200 (Some ex_partida)))
          (λ t _ _, match t with 1%nat => false | _ => true end)
          elements
          "./data_bot.json".

(** Nobody is playing: every request is answered with 404. *)
Definition ex_world_404 : World :=
  mkWorld (λ _ _, Some (mkResponse 404 None))
          (λ _ _ _, true)
          elements
          "./data_bot.json".

(** A configuration without a registered chat. *)
Definition ex_dados_sem_chat : Dados := mkDados ["alice"] ∅ [] None.

(** * Properties *)

(** ** Strings *)

Lemma str_app_cons (x : ascii) (a b : string) :
  String x a +:+ b = String x (a +:+ b).
Proof. reflexivity. Qed.

Lemma str_app_assoc (a b c : string) : (a +:+ b) +:+ c = a +:+ b +:+ c.
Proof.
  induction a as [|x a IH]; [reflexivity|].
  now rewrite !str_app_cons, IH.
Qed.

Lemma str_app_nil_r (a : string) : a +:+ "" = a.
Proof.
  induction a as [|x a IH]; [reflexivity|].
  now rewrite str_app_cons, IH.
Qed.

Lemma lower_char_idemp (c : ascii) : lower_char (lower_char c) = lower_char c.
Proof. destruct c as [[] [] [] [] [] [] [] []]; reflexivity. Qed.

Lemma lower_upper_char (c : ascii) : lower_char (upper_char c) = lower_char c.
Proof. destruct c as [[] [] [] [] [] [] [] []]; reflexivity. Qed.

Lemma str_lower_idemp (s : string) : str_lower (str_lower s) = str_lower s.
Proof.
  induction s as [|c s IH]; [reflexivity|].
  cbn. now rewrite lower_char_idemp, IH.
Qed.

(** The capitalised form of a string is the string up to letter case. *)
Lemma str_lower_capitalize (s : string) :
  str_lower (str_capitalize s) = str_lower s.
Proof.
  destruct s as [|c s]; [reflexivity|].
  cbn. now rewrite lower_upper_char, str_lower_idemp.
Qed.

Lemma occurs_in_refl (s : string) : occurs_in s s.
Proof. exists "", "". change ("" +:+ s +:+ "") with (s +:+ ""). now rewrite str_app_nil_r. Qed.

Lemma occurs_in_here (sub post : string) : occurs_in sub (sub +:+ post).
Proof. now exists "", post. Qed.

Lemma occurs_in_app_r (sub a b : string) : occurs_in sub b → occurs_in sub (a +:+ b).
Proof.
  intros (pre & post & ->). exists (a +:+ pre), post.
  symmetry. apply str_app_assoc.
Qed.

Create HintDb occurs.
#[local] Hint Resolve occurs_in_refl occurs_in_here occurs_in_app_r : occurs.

(** Walks down a concatenation to the piece that is looked for. *)
Ltac find_occurrence :=
  first [ apply occurs_in_here
        | apply occurs_in_refl
        | apply occurs_in_app_r; find_occurrence ].

(** ** Membership tests *)

Lemma str_in_true (x : string) (l : list string) : str_in x l = true ↔ x ∈ l.
Proof. unfold str_in. apply bool_decide_eq_true. Qed.

Lemma str_in_false (x : string) (l : list string) : str_in x l = false ↔ x ∉ l.
Proof. unfold str_in. apply bool_decide_eq_false. Qed.

Lemma truthy_list_true {A} (l : list A) : truthy_list l = true ↔ l ≠ [].
Proof. destruct l; cbn; split; congruence. Qed.

Lemma ritmo_permitido_true (ritmos : list string) (r : string) :
  ritmo_permitido ritmos r = true ↔ ritmos = [] ∨ r ∈ ritmos.
Proof.
  unfold ritmo_permitido. destruct ritmos as [|x l]; cbn.
  - split; auto.
  - destruct (str_in r (x :: l)) eqn:E; cbn.
    + apply str_in_true in E. split; auto.
    + apply str_in_false in E. split; [discriminate|]. intros [|]; [discriminate|done].
Qed.

Lemma ritmo_permitido_false (ritmos : list string) (r : string) :
  ritmo_permitido ritmos r = false ↔ ritmos ≠ [] ∧ r ∉ ritmos.
Proof.
  split.
  - intros H. split.
    + intros ->. discriminate.
    + intros Hin. assert (ritmo_permitido ritmos r = true) as E
        by (apply ritmo_permitido_true; auto). congruence.
  - intros [Hne Hnin]. destruct (ritmo_permitido ritmos r) eqn:E; [|done].
    apply ritmo_permitido_true in E as [|]; done.
Qed.

(** The speed test only looks at membership. *)
Lemma ritmo_permitido_ext (r1 r2 : list string) (r : string) :
  (∀ x, x ∈ r1 ↔ x ∈ r2) → ritmo_permitido r1 r = ritmo_permitido r2 r.
Proof.
  intros Hext. destruct (ritmo_permitido r2 r) eqn:E.
  - apply ritmo_permitido_true. apply ritmo_permitido_true in E as [->|Hin].
    + left. destruct r1 as [|x l]; [done|]. exfalso.
      apply (not_elem_of_nil x), Hext. left.
    + right. now apply Hext.
  - apply ritmo_permitido_false. apply ritmo_permitido_false in E as [Hne Hnin]. split.
    + intros ->. destruct r2 as [|x l]; [done|].
      apply (not_elem_of_nil x), Hext. left.
    + intros Hin. now apply Hnin, Hext.
Qed.

(** ** The monad *)

Ltac unfold_bot :=
  unfold verificar_partidas_iter, verificar_agora_iter, try_except,
    verificar_partidas_gm, verificar_agora_gm, marcar_notificada,
    partidas_notificadas_add, salvar_dados, jogos_encontrados_incr,
    bind, http_get, response_json, get_dados, put_dados, send_message,
    logger, reply_text, ret, raise, continue, pass.

Lemma for_in_app {A} (l1 l2 : list A) (body : A → M unit) (s : State) :
  (∀ x s', ∃ st, body x s' = (Val tt, st) ∨ body x s' = (Continue, st)) →
  for_in (l1 ++ l2) body s = for_in l2 body (exec (for_in l1 body) s).
Proof.
  intros Hbody. revert s. induction l1 as [|x l1 IH]; intros s; [reflexivity|].
  cbn [app for_in]. unfold exec. cbn [for_in].
  destruct (Hbody x s) as (st & [E|E]); rewrite E; apply IH.
Qed.

(** ** One iteration of the scheduled cycle, case by case *)

Section Iteration.

Variable w : World.
Variables (chat : Z) (gm : string) (s : State).

Let erro (e : exn) : log_record := LError ("Erro ao verificar " +:+ gm) e.

Lemma iter_http_error :
  client_get w (clock s) (url_current_game gm) = None →
  verificar_partidas_iter w chat gm s =
    (Val tt, apos_log (erro HTTPError) (apos_get w gm s)).
Proof.
  intros H. unfold_bot. unfold apos_log, apos_get. now rewrite H.
Qed.

Lemma iter_not_200 resp :
  client_get w (clock s) (url_current_game gm) = Some resp →
  status_code resp ≠ 200 →
  verificar_partidas_iter w chat gm s = (Val tt, apos_get w gm s).
Proof.
  intros H Hs. unfold_bot. unfold apos_get. rewrite H.
  apply Z.eqb_neq in Hs. now rewrite Hs.
Qed.

Lemma iter_json_error resp :
  client_get w (clock s) (url_current_game gm) = Some resp →
  status_code resp = 200 → json resp = None →
  verificar_partidas_iter w chat gm s =
    (Val tt, apos_log (erro JSONDecodeError) (apos_get w gm s)).
Proof.
  intros H Hs Hj. unfold_bot. unfold apos_log, apos_get. now rewrite H, Hs, Hj.
Qed.

Lemma iter_malformada resp p :
  client_get w (clock s) (url_current_game gm) = Some resp →
  status_code resp = 200 → json resp = Some p → malformada p = true →
  verificar_partidas_iter w chat gm s = (Continue, apos_get w gm s).
Proof.
  intros H Hs Hj Hm. unfold_bot. unfold apos_get. rewrite H, Hs, Hj. cbn [Z.eqb Pos.eqb].
  unfold malformada in Hm.
  destruct (pt_id p) as [i|], (pt_opponent p) as [o|]; try reflexivity.
  now rewrite Hm.
Qed.

Section WellFormed.

Variables (resp : Response) (p : Partida) (id_partida : string)
          (opponent : option string).
Hypothesis Hget : client_get w (clock s) (url_current_game gm) = Some resp.
Hypothesis Hstatus : status_code resp = 200.
Hypothesis Hjson : json resp = Some p.
Hypothesis Hid : pt_id p = Some id_partida.
Hypothesis Hid_ne : id_partida ≠ "".
Hypothesis Hopp : pt_opponent p = Some opponent.

Let ritmo := str_lower (default "" (pt_speed p)).

Lemma iter_ritmo_filtrado :
  ritmo_permitido (ritmos_permitidos (dados s)) ritmo = false →
  verificar_partidas_iter w chat gm s = (Continue, apos_get w gm s).
Proof using Hget Hstatus Hjson Hid Hid_ne Hopp.
  intros Hf. unfold_bot. unfold apos_get. rewrite Hget, Hstatus, Hjson, Hid, Hopp.
  cbn [Z.eqb Pos.eqb]. destruct id_partida; [done|]. cbn [truthy_str negb dados].
  unfold ritmo_permitido, ritmo in Hf. apply negb_false_iff in Hf. now rewrite Hf.
Qed.

Lemma iter_ja_notificada :
  id_partida ∈ partidas_notificadas (dados s) →
  verificar_partidas_iter w chat gm s = (Continue, apos_get w gm s).
Proof using Hget Hstatus Hjson Hid Hid_ne Hopp.
  intros Hin. unfold_bot. unfold apos_get. rewrite Hget, Hstatus, Hjson, Hid, Hopp.
  cbn [Z.eqb Pos.eqb]. destruct id_partida; [done|]. cbn [truthy_str negb dados].
  destruct (truthy_list _ && _); [reflexivity|].
  now rewrite (bool_decide_eq_true_2 _ Hin).
Qed.

Hypothesis Hritmo : ritmo_permitido (ritmos_permitidos (dados s)) ritmo = true.
Hypothesis Hnova : id_partida ∉ partidas_notificadas (dados s).

Lemma iter_key_error :
  pt_white_name p = None →
  verificar_partidas_iter w chat gm s =
    (Val tt, apos_log (erro KeyError) (apos_get w gm s)).
Proof using Hget Hstatus Hjson Hid Hid_ne Hopp Hritmo Hnova.
  intros Hw. unfold_bot. unfold apos_log, apos_get. rewrite Hget, Hstatus, Hjson, Hid, Hopp.
  cbn [Z.eqb Pos.eqb]. destruct id_partida; [done|]. cbn [truthy_str negb dados].
  unfold ritmo_permitido, ritmo in Hritmo. apply negb_true_iff in Hritmo. rewrite Hritmo.
  rewrite (bool_decide_eq_false_2 _ Hnova). now rewrite Hw.
Qed.

Variable white : string.
Hypothesis Hwhite : pt_white_name p = Some white.

Let mensagem := mensagem_de gm p id_partida opponent white.

Lemma iter_send_error :
  bot_send_message w (S (clock s)) chat mensagem = false →
  verificar_partidas_iter w chat gm s =
    (Val tt, apos_log (erro TelegramError)
               (apos_send chat mensagem false (apos_get w gm s))).
Proof using Hget Hstatus Hjson Hid Hid_ne Hopp Hritmo Hnova Hwhite.
  intros Hsend. unfold_bot. unfold apos_log, apos_send, apos_get.
  rewrite Hget, Hstatus, Hjson, Hid, Hopp.
  cbn [Z.eqb Pos.eqb]. destruct id_partida; [done|]. cbn [truthy_str negb dados].
  unfold ritmo_permitido, ritmo in Hritmo. apply negb_true_iff in Hritmo. rewrite Hritmo.
  rewrite (bool_decide_eq_false_2 _ Hnova), Hwhite. cbn [clock].
  unfold mensagem, mensagem_de, cor_de in Hsend. now rewrite Hsend.
Qed.

Lemma iter_send_ok :
  bot_send_message w (S (clock s)) chat mensagem = true →
  verificar_partidas_iter w chat gm s =
    (Val tt, apos_marcar w id_partida
               (apos_send chat mensagem true (apos_get w gm s))).
Proof using Hget Hstatus Hjson Hid Hid_ne Hopp Hritmo Hnova Hwhite.
  intros Hsend. unfold_bot. unfold apos_marcar, apos_log, apos_send, apos_get.
  rewrite Hget, Hstatus, Hjson, Hid, Hopp.
  cbn [Z.eqb Pos.eqb]. destruct id_partida; [done|]. cbn [truthy_str negb dados].
  unfold ritmo_permitido, ritmo in Hritmo. apply negb_true_iff in Hritmo. rewrite Hritmo.
  rewrite (bool_decide_eq_false_2 _ Hnova), Hwhite. cbn [clock].
  unfold mensagem, mensagem_de, cor_de in Hsend. now rewrite Hsend.
Qed.

End WellFormed.

End Iteration.

Lemma malformada_false (p : Partida) :
  malformada p = false →
  ∃ id_partida opponent,
    pt_id p = Some id_partida ∧ id_partida ≠ "" ∧ pt_opponent p = Some opponent.
Proof.
  unfold malformada. destruct (pt_id p) as [i|], (pt_opponent p) as [o|]; try discriminate.
  intros H. exists i, o. split_and!; try reflexivity. now destruct i.
Qed.

Lemma malformada_true (p : Partida) id_partida opponent :
  pt_id p = Some id_partida → id_partida ≠ "" → pt_opponent p = Some opponent →
  malformada p = false.
Proof. unfold malformada. intros -> Hne ->. now destruct id_partida. Qed.

Lemma com_partidas_id (d : Dados) : com_partidas (partidas_notificadas d) d = d.
Proof. now destruct d. Qed.

(** Every iteration ends normally or by [continue], after exactly one
    request, and falls into one of the three outcomes. *)
Lemma verificar_partidas_iter_spec (w : World) (chat : Z) (gm : string) (s : State) :
  ∃ r st,
    verificar_partidas_iter w chat gm s = (r, st) ∧
    (r = Val tt ∨ r = Continue) ∧
    requests st = requests (apos_get w gm s) ∧
    replies st = replies s ∧
    jogos_encontrados st = jogos_encontrados s ∧
    iter_outcome w chat gm s st.
Proof.
  destruct (client_get w (clock s) (url_current_game gm)) as [resp|] eqn:Hget.
  2: { eexists _, _. split; [now apply iter_http_error|].
       split_and!; auto. now apply IterQuiet. }
  destruct (decide (status_code resp = 200)) as [Hs|Hs].
  2: { eexists _, _. split; [eapply iter_not_200; eauto|].
       split_and!; auto. now apply IterQuiet. }
  destruct (json resp) as [p|] eqn:Hj.
  2: { eexists _, _. split; [eapply iter_json_error; eauto|].
       split_and!; auto. now apply IterQuiet. }
  destruct (malformada p) eqn:Hm.
  { eexists _, _. split; [eapply iter_malformada; eauto|].
    split_and!; auto. now apply IterQuiet. }
  apply malformada_false in Hm as (i & o & Hid & Hne & Hopp).
  destruct (ritmo_permitido (ritmos_permitidos (dados s))
              (str_lower (default "" (pt_speed p)))) eqn:Hr.
  2: { eexists _, _. split; [eapply iter_ritmo_filtrado; eauto|].
       split_and!; auto. now apply IterQuiet. }
  destruct (decide (i ∈ partidas_notificadas (dados s))) as [Hin|Hin].
  { eexists _, _. split; [eapply iter_ja_notificada; eauto|].
    split_and!; auto. now apply IterQuiet. }
  destruct (pt_white_name p) as [white|] eqn:Hw.
  2: { eexists _, _. split; [eapply iter_key_error; eauto|].
       split_and!; auto. now apply IterQuiet. }
  destruct (bot_send_message w (S (clock s)) chat (mensagem_de gm p i o white)) eqn:Hsend.
  - eexists _, _. split; [eapply iter_send_ok; eauto|].
    split_and!; auto. now apply (IterNotified _ _ _ _ _ p i o white).
  - eexists _, _. split; [eapply iter_send_error; eauto|].
    split_and!; auto. now apply (IterSendFailed _ _ _ _ _ p i o white).
Qed.

Lemma mensagem_de_notifica chat gm p id_partida opponent white ok :
  notifica id_partida (chat, mensagem_de gm p id_partida opponent white, ok).
Proof.
  unfold notifica, mensagem_de, mensagem_automatica. cbn [fst snd].
  find_occurrence.
Qed.

Lemma entregues_app (l1 l2 : list (Z * string * bool)) :
  entregues (l1 ++ l2) = entregues l1 ++ entregues l2.
Proof. apply filter_app. Qed.

(** The loop of the scheduled cycle. *)
Lemma verificar_partidas_loop_spec (w : World) (chat : Z) (gms : list string) (s : State) :
  ∃ st ids news,
    for_in gms (verificar_partidas_iter w chat) s = (Val tt, st) ∧
    ciclo_post chat gms s st ids news.
Proof.
  revert s. induction gms as [|gm gms IH]; intros s.
  - exists s, [], []. split; [reflexivity|]. unfold ciclo_post.
    cbn [list_to_set foldr map entregues filter].
    rewrite !app_nil_r, union_empty_l_L, com_partidas_id.
    split_and!; auto using NoDup_nil_2.
  - destruct (verificar_partidas_iter_spec w chat gm s)
      as (r & s1 & E & Hr & Hreq & Hrep & Hj & Hout).
    destruct (IH s1) as (st & ids & news & Eloop & Hpost).
    destruct Hpost as (Preq & Prep & Pj & Pd & Psends & Pnd & Pfresh & Pnot & Pshape).
    assert (for_in (gm :: gms) (verificar_partidas_iter w chat) s = (Val tt, st)) as Efor.
    { cbn [for_in]. rewrite E. now destruct Hr as [-> | ->]. }
    assert (map fst (requests st) =
            map fst (requests s) ++ map url_current_game (gm :: gms)) as Hrequests.
    { rewrite Preq, Hreq. cbn [apos_get requests].
      rewrite map_app. cbn. now rewrite <- app_assoc. }
    destruct Hout as [Hd Ha Hs | p i o wh Hd Ha Hs | p i o wh Hfresh Hd Ha Hs].
    + exists st, ids, news. split; [exact Efor|]. unfold ciclo_post.
      rewrite <- Hd, <- Hs. split_and!; auto; congruence.
    + exists st, ids, ((chat, mensagem_de gm p i o wh, false) :: news).
      split; [exact Efor|]. unfold ciclo_post.
      rewrite <- Hd. split_and!; auto; try congruence.
      * rewrite Psends, Hs. now rewrite <- app_assoc.
      * constructor; [|exact Pshape]. split; [reflexivity|]. now exists gm, p, i, o, wh.
    + exists st, (i :: ids), ((chat, mensagem_de gm p i o wh, true) :: news).
      split; [exact Efor|]. unfold ciclo_post.
      rewrite Hd in Pd, Pfresh. cbn [partidas_notificadas com_partidas] in Pd, Pfresh.
      split_and!; auto; try congruence.
      * rewrite Pd. unfold com_partidas. cbn [gms_a_monitorar ritmos_permitidos chat_id
          partidas_notificadas list_to_set foldr]. f_equal.
        now rewrite (assoc_L (∪)), (comm_L (∪) (list_to_set ids)).
      * rewrite Psends, Hs. now rewrite <- app_assoc.
      * constructor; [|exact Pnd]. intros Hin.
        rewrite Forall_forall in Pfresh. apply (Pfresh i Hin).
        apply elem_of_union. left. now apply elem_of_singleton.
      * constructor; [exact Hfresh|]. eapply Forall_impl; [exact Pfresh|].
        cbn. intros x Hx Hin. apply Hx, elem_of_union. now right.
      * unfold entregues. rewrite filter_cons_True by reflexivity.
        constructor; [apply mensagem_de_notifica | exact Pnot].
      * constructor; [|exact Pshape]. split; [reflexivity|]. now exists gm, p, i, o, wh.
Qed.

(** The scheduled cycle with a registered chat is the loop after one log line. *)
Lemma verificar_partidas_com_chat (w : World) (s : State) (chat : Z) :
  chat_id (dados s) = Some chat → chat ≠ 0 →
  verificar_partidas w s =
    for_in (gms_a_monitorar (dados s)) (verificar_partidas_iter w chat)
           (apos_log (LInfo "Iniciando verificação de partidas...") s).
Proof.
  intros Hc Hne. unfold verificar_partidas, bind, get_dados. rewrite Hc.
  now destruct chat.
Qed.

(** Without a registered chat the cycle is skipped with a warning. *)
Lemma verificar_partidas_sem_chat (w : World) (s : State) :
  truthy_chat (chat_id (dados s)) = false →
  verificar_partidas w s =
    (Val tt, apos_log (LWarning
       "Notificação automática pulada: Chat ID não configurado. Use /start.") s).
Proof.
  intros Hc. unfold verificar_partidas, bind, get_dados.
  destruct (chat_id (dados s)) as [[| |]|]; try discriminate; reflexivity.
Qed.

Lemma truthy_chat_cases (c : option Z) :
  truthy_chat c = false ∨ ∃ chat, c = Some chat ∧ chat ≠ 0.
Proof.
  destruct c as [[|z|z]|]; auto; right; eexists; (split; [reflexivity|discriminate]).
Qed.

(** The whole scheduled cycle, whatever the world does. *)
Lemma verificar_partidas_spec (w : World) (s : State) :
  ∃ st, verificar_partidas w s = (Val tt, st) ∧
    ((truthy_chat (chat_id (dados s)) = false ∧
      dados st = dados s ∧ arquivo st = arquivo s ∧ sends st = sends s ∧
      requests st = requests s ∧ replies st = replies s)
     ∨ (∃ chat ids news,
          chat_id (dados s) = Some chat ∧ chat ≠ 0 ∧
          ciclo_post chat (gms_a_monitorar (dados s)) s st ids news)).
Proof.
  destruct (truthy_chat_cases (chat_id (dados s))) as [Hc | (chat & Hc & Hne)].
  - eexists. split; [now apply verificar_partidas_sem_chat|]. left. now split_and!.
  - rewrite (verificar_partidas_com_chat w s chat Hc Hne).
    destruct (verificar_partidas_loop_spec w chat (gms_a_monitorar (dados s))
                (apos_log (LInfo "Iniciando verificação de partidas...") s))
      as (st & ids & news & E & Hpost).
    exists st. split; [exact E|]. right. exists chat, ids, news. now split_and!.
Qed.

(** C2. For a well-formed game document (HTTP 200, an id, the opponent
    field, the white player's name) the iteration of the scheduled cycle
    decides as follows: it sends nothing when the speed filter is non-empty
    and the lower-cased speed is not in it; it sends nothing when the game
    id is already in [partidas_notificadas]; otherwise it calls
    [send_message] with a text that contains the monitored player's name
    and the speed label (both capitalised for display), the opponent's
    name, the colour and the link [https://lichess.org/<id>].  Hence an
    empty filter never suppresses, and an already notified game is always
    suppressed, whatever its speed. *)
Theorem C2_filter_decision
    (w : World) (chat : Z) (gm : string) (s : State) (resp : Response) (p : Partida)
    (id_partida : string) (opponent : option string) (white : string) :
  client_get w (clock s) (url_current_game gm) = Some resp →
  status_code resp = 200 →
  json resp = Some p →
  pt_id p = Some id_partida → id_partida ≠ "" →
  pt_opponent p = Some opponent →
  pt_white_name p = Some white →
  let d := dados s in
  let ritmo := str_lower (default "" (pt_speed p)) in
  let oponente := default "Desconhecido" opponent in
  let cor := if String.eqb (str_lower white) gm then "Brancas" else "Negras" in
  let link := "https://lichess.org/" +:+ id_partida in
  let mensagem := mensagem_automatica gm oponente ritmo cor link in
  let st := exec (verificar_partidas_iter w chat gm) s in
  (* rule 1: suppressed on speed *)
  (ritmos_permitidos d ≠ [] → ritmo ∉ ritmos_permitidos d →
     sends st = sends s ∧ dados st = dados s) ∧
  (* rule 2: suppressed as already notified, whatever the speed *)
  (id_partida ∈ partidas_notificadas d →
     sends st = sends s ∧ dados st = dados s) ∧
  (* rule 3: otherwise the notification is sent *)
  ((ritmos_permitidos d = [] ∨ ritmo ∈ ritmos_permitidos d) →
   id_partida ∉ partidas_notificadas d →
     sends st = sends s ++
       [(chat, mensagem, bot_send_message w (S (clock s)) chat mensagem)]) ∧
  (* the text of the notification *)
  (occurs_in (str_capitalize gm) mensagem ∧
   str_lower (str_capitalize gm) = str_lower gm) ∧
  occurs_in oponente mensagem ∧
  (occurs_in (str_capitalize ritmo) mensagem ∧
   str_lower (str_capitalize ritmo) = ritmo) ∧
  occurs_in cor mensagem ∧
  occurs_in link mensagem.
Proof.
  intros Hget Hs Hj Hid Hne Hopp Hw d ritmo oponente cor link mensagem st.
  split_and!.
  - intros Hr1 Hr2. unfold st, exec.
    rewrite (iter_ritmo_filtrado w chat gm s resp p id_partida opponent); auto.
    now apply ritmo_permitido_false.
  - intros Hin. unfold st, exec.
    rewrite (iter_ja_notificada w chat gm s resp p id_partida opponent); auto.
  - intros Hr Hnin. unfold st, exec.
    assert (ritmo_permitido (ritmos_permitidos (dados s)) ritmo = true) as Hperm
      by now apply ritmo_permitido_true.
    destruct (bot_send_message w (S (clock s)) chat mensagem) eqn:Hsend.
    + now rewrite (iter_send_ok _ _ _ _ _ _ _ _ Hget Hs Hj Hid Hne Hopp Hperm Hnin
                     white Hw Hsend).
    + now rewrite (iter_send_error _ _ _ _ _ _ _ _ Hget Hs Hj Hid Hne Hopp Hperm Hnin
                     white Hw Hsend).
  - unfold mensagem, mensagem_automatica. find_occurrence.
  - apply str_lower_capitalize.
  - unfold mensagem, mensagem_automatica. find_occurrence.
  - unfold mensagem, mensagem_automatica. find_occurrence.
  - unfold ritmo. now rewrite str_lower_capitalize, str_lower_idemp.
  - unfold mensagem, mensagem_automatica. find_occurrence.
  - unfold mensagem, mensagem_automatica. find_occurrence.
Qed.

Lemma exec_iter_outcome (w : World) (chat : Z) (gm : string) (s : State) :
  iter_outcome w chat gm s (exec (verificar_partidas_iter w chat gm) s).
Proof.
  destruct (verificar_partidas_iter_spec w chat gm s) as (r & st & E & _ & _ & _ & _ & H).
  unfold exec. now rewrite E.
Qed.

(** C5. In an iteration of the scheduled cycle the state either stays as
    it was, or exactly one game id that was not yet in the dedup set is
    added to it, the state is saved, and the last call of [send_message]
    was the delivered notification of that game.  When the send raises,
    [dados] and the state file are unchanged.  Over a whole cycle the ids
    added are pairwise distinct, were all absent before, and correspond
    one to one, in order, to the delivered notifications. *)
Theorem C5_marked_only_after_delivery (w : World) (chat : Z) (gm : string) (s : State) :
  let st := exec (verificar_partidas_iter w chat gm) s in
  let fim := exec (verificar_partidas w) s in
  (* one iteration *)
  ((dados st = dados s ∧ arquivo st = arquivo s) ∨
   (∃ id_partida text,
      (id_partida ∉ partidas_notificadas (dados s)) ∧
      sends st = sends s ++ [(chat, text, true)] ∧
      notifica id_partida (chat, text, true) ∧
      dados st = com_partidas ({[id_partida]} ∪ partidas_notificadas (dados s)) (dados s) ∧
      arquivo st = Some (dados_para_salvar w (dados st)))) ∧
  (* a send that raised leaves the configuration alone *)
  (∀ text, sends st = sends s ++ [(chat, text, false)] →
     dados st = dados s ∧ arquivo st = arquivo s) ∧
  (* the whole cycle *)
  (∃ ids news,
      sends fim = sends s ++ news ∧
      partidas_notificadas (dados fim) = list_to_set ids ∪ partidas_notificadas (dados s) ∧
      NoDup ids ∧
      Forall (λ i, i ∉ partidas_notificadas (dados s)) ids ∧
      Forall2 notifica ids (entregues news)).
Proof.
  intros st fim. split_and!.
  - destruct (exec_iter_outcome w chat gm s)
      as [Hd Ha Hs | p i o wh Hd Ha Hs | p i o wh Hfresh Hd Ha Hs]; fold st in Hd, Ha, Hs.
    + now left.
    + now left.
    + right. exists i, (mensagem_de gm p i o wh). split_and!; auto.
      apply mensagem_de_notifica.
  - intros text Htext.
    destruct (exec_iter_outcome w chat gm s)
      as [Hd Ha Hs | p i o wh Hd Ha Hs | p i o wh Hfresh Hd Ha Hs]; fold st in Hd, Ha, Hs;
      auto.
    rewrite Hs in Htext. apply app_inj_tail in Htext as [_ Htext]. discriminate.
  - destruct (verificar_partidas_spec w s) as (st' & E & Hcases).
    assert (fim = st') as -> by (unfold fim, exec; now rewrite E).
    destruct Hcases as [(_ & Hd & _ & Hs & _) | (c & ids & news & _ & _ & Hpost)].
    + exists [], []. rewrite Hd, Hs, app_nil_r. cbn [list_to_set foldr].
      rewrite union_empty_l_L. split_and!; auto using NoDup_nil_2.
    + destruct Hpost as (_ & _ & _ & Pd & Psends & Pnd & Pfresh & Pnot & _).
      exists ids, news. rewrite Pd. split_and!; auto.
Qed.

(** C7. With a chat registered, the scheduled cycle always ends normally,
    whatever requests and sends fail on the way: the requests it makes are
    exactly those for the monitored players, one each and in order, so a
    failure for one player does not keep the later ones from being
    checked.  Nothing is replied to the user, and every [send_message]
    call of the cycle is a game notification addressed to the registered
    chat: no failure is reported to the chat. *)
Theorem C7_failures_are_isolated (w : World) (s : State) (chat : Z) :
  chat_id (dados s) = Some chat → chat ≠ 0 →
  ∃ st news,
    verificar_partidas w s = (Val tt, st) ∧
    map fst (requests st) =
      map fst (requests s) ++ map url_current_game (gms_a_monitorar (dados s)) ∧
    replies st = replies s ∧
    sends st = sends s ++ news ∧
    Forall (send_de_notificacao chat) news.
Proof.
  intros Hc Hne.
  destruct (verificar_partidas_spec w s) as (st & E & Hcases).
  destruct Hcases as [(Hf & _) | (c & ids & news & Hc' & _ & Hpost)].
  - rewrite Hc in Hf. destruct chat; done.
  - assert (c = chat) as -> by congruence.
    destruct Hpost as (Preq & Prep & _ & _ & Psends & _ & _ & _ & Pshape).
    exists st, news. now split_and!.
Qed.

(** ** Persistence *)

Lemma exec_salvar_dados (w : World) (s : State) :
  exec (salvar_dados w) s =
    apos_log (LInfo "Dados salvos com sucesso!")
             (with_arquivo (Some (dados_para_salvar w (dados s))) s).
Proof. reflexivity. Qed.

Lemma exec_carregar_dados_existente (w : World) (s : State) (a : Arquivo) :
  arquivo s = Some a →
  dados (exec (carregar_dados w) s) = dados_carregados a.
Proof. intros H. unfold exec, carregar_dados. now rewrite H. Qed.

Lemma list_to_set_enumerates (f : gset string → list string) (n : gset string) :
  enumerates f → list_to_set (f n) = n.
Proof.
  intros Hf. apply set_eq. intros x. rewrite elem_of_list_to_set.
  apply (Hf n).
Qed.

Lemma dados_carregados_para_salvar (w : World) (d : Dados) :
  enumerates (list_of_set w) →
  dados_carregados (dados_para_salvar w d) = d.
Proof.
  intros Hf. destruct d as [g n r c]. unfold dados_carregados, dados_para_salvar.
  cbn. now rewrite list_to_set_enumerates.
Qed.

(** C3. After [salvar_dados], a [carregar_dados] that finds the file just
    written (in this process or after a restart, whatever [dados] held
    before the load) rebuilds the saved configuration: the players in the
    same order, the same speed filter, the same chat id, and a dedup set
    with the same members, although the file holds it as a list in the
    iteration order of the set. *)
Theorem C3_persist_load_roundtrip (w w' : World) (s s' : State) :
  enumerates (list_of_set w) →
  arquivo s' = arquivo (exec (salvar_dados w) s) →
  let st := exec (carregar_dados w') s' in
  dados st = dados s ∧
  gms_a_monitorar (dados st) = gms_a_monitorar (dados s) ∧
  (∀ g, g ∈ partidas_notificadas (dados st) ↔ g ∈ partidas_notificadas (dados s)) ∧
  ritmos_permitidos (dados st) = ritmos_permitidos (dados s) ∧
  chat_id (dados st) = chat_id (dados s) ∧
  ∃ a, arquivo s' = Some a ∧
       arq_partidas_notificadas a = list_of_set w (partidas_notificadas (dados s)) ∧
       partidas_notificadas (dados st) = list_to_set (arq_partidas_notificadas a).
Proof.
  intros Hf Harq st.
  rewrite exec_salvar_dados in Harq. cbn [apos_log with_log with_arquivo arquivo] in Harq.
  assert (dados st = dados s) as Hd.
  { unfold st. rewrite (exec_carregar_dados_existente w' s' _ Harq).
    now apply dados_carregados_para_salvar. }
  split_and!; try now rewrite Hd.
  eexists. split; [exact Harq|]. split; [reflexivity|].
  unfold st. now rewrite (exec_carregar_dados_existente w' s' _ Harq).
Qed.

Lemma exec_marcar_notificada (w : World) (g : string) (s : State) :
  exec (marcar_notificada w g) s = apos_marcar w g s.
Proof. reflexivity. Qed.

Lemma filter_eq_absent (g : string) (l : list string) :
  g ∉ l → filter (λ x, x = g) l = [].
Proof.
  induction l as [|x l IH]; intros Hnin; [reflexivity|].
  apply not_elem_of_cons in Hnin as [Hne Hnin].
  rewrite filter_cons_False by congruence. now apply IH.
Qed.

Lemma filter_eq_NoDup (g : string) (l : list string) :
  NoDup l → g ∈ l → length (filter (λ x, x = g) l) = 1%nat.
Proof.
  induction 1 as [|x l Hx Hnd IH]; intros Hin.
  - now apply elem_of_nil in Hin.
  - destruct (decide (x = g)) as [->|Hne].
    + rewrite filter_cons_True by reflexivity. cbn. f_equal.
      now rewrite filter_eq_absent.
    + rewrite filter_cons_False by assumption. apply IH.
      apply elem_of_cons in Hin as [->|]; [contradiction|assumption].
Qed.

(** C6. Marking the same game twice is the same as marking it once: the
    second call changes neither [dados] nor the state file, the dedup set
    is the old one with [g] added, and the list written to the file holds
    [g] exactly once. *)
Theorem C6_mark_notified_idempotent (w : World) (g : string) (s : State) :
  enumerates (list_of_set w) →
  let s1 := exec (marcar_notificada w g) s in
  let s2 := exec (marcar_notificada w g) s1 in
  dados s2 = dados s1 ∧
  arquivo s2 = arquivo s1 ∧
  partidas_notificadas (dados s2) = {[g]} ∪ partidas_notificadas (dados s) ∧
  (g ∈ partidas_notificadas (dados s2)) ∧
  size (partidas_notificadas (dados s2)) = size (partidas_notificadas (dados s1)) ∧
  ∃ a, arquivo s2 = Some a ∧
       length (filter (λ x, x = g) (arq_partidas_notificadas a)) = 1%nat.
Proof.
  intros Hf s1 s2. unfold s2, s1. rewrite !exec_marcar_notificada.
  unfold apos_marcar, apos_log, com_partidas.
  cbn [dados arquivo with_log with_arquivo with_dados gms_a_monitorar
       partidas_notificadas ritmos_permitidos chat_id].
  assert ({[g]} ∪ ({[g]} ∪ partidas_notificadas (dados s))
          = {[g]} ∪ partidas_notificadas (dados s)) as Hidem.
  { now rewrite (assoc_L (∪)), (idemp_L (∪)). }
  rewrite !Hidem. split_and!; try reflexivity.
  - apply elem_of_union. left. now apply elem_of_singleton.
  - eexists. split; [reflexivity|]. cbn [dados_para_salvar arq_partidas_notificadas
      partidas_notificadas].
    destruct (Hf ({[g]} ∪ partidas_notificadas (dados s))) as [Hnd Hmem].
    apply filter_eq_NoDup; [exact Hnd|]. apply Hmem.
    apply elem_of_union. left. now apply elem_of_singleton.
Qed.

(** ** The speed filter command *)

(** The comprehension of line 204 keeps, in order, the lower-cased
    arguments that are valid speeds. *)
Lemma novos_ritmos_de_filter (args : list string) :
  novos_ritmos_de args = filter (λ r, r ∈ ritmos_validos) (map str_lower args).
Proof.
  unfold novos_ritmos_de. induction args as [|a args IH]; [reflexivity|].
  cbn [map]. destruct (decide (str_lower a ∈ ritmos_validos)) as [Hin|Hnin].
  - rewrite !filter_cons_True by assumption. cbn [map]. now rewrite IH.
  - rewrite !filter_cons_False by assumption. exact IH.
Qed.

(** What the branch that sets the filter does. *)
Lemma exec_definir_filtro_ritmo (w : World) (args : list string) (s : State) :
  let novos := novos_ritmos_de args in
  definir_filtro_ritmo w args s =
    if truthy_list novos
    then (Val tt,
          with_replies (replies s ++ ["Filtro de ritmo atualizado para: "
                                      +:+ str_join ", " novos])
            (apos_log (LInfo "Dados salvos com sucesso!")
               (with_arquivo (Some (dados_para_salvar w (com_ritmos novos (dados s))))
                  (with_dados (com_ritmos novos (dados s)) s))))
    else (Val tt, with_replies (replies s ++ [msg_nenhum_ritmo]) s).
Proof.
  intros novos. unfold definir_filtro_ritmo. fold novos.
  now destruct (truthy_list novos).
Qed.

(** [filtro_ritmo] reaches that branch whenever it is given arguments
    that do not start with [ver] or [todos]. *)
Lemma filtro_ritmo_definir (w : World) (args : list string) :
  args ≠ [] → subcomando args = false →
  filtro_ritmo w args = definir_filtro_ritmo w args.
Proof.
  destruct args as [|arg0 rest]; [done|]. intros _ Hsub.
  cbn [subcomando] in Hsub. apply orb_false_iff in Hsub as [Hver Htodos].
  unfold filtro_ritmo. now rewrite Hver, Htodos.
Qed.

(** C4. The branch of [filtro_ritmo] that sets the filter (lines 203-210,
    reached for arguments that do not start with the sub-commands [ver]
    and [todos]) replaces [ritmos_permitidos] by the lower-cased arguments
    that belong to bullet, blitz, rapid, classical, and saves; the members
    of the new filter are exactly the lower-cased inputs that are valid
    speeds.  When no argument is valid, [dados] and the file stay as they
    were and the reply says that no valid speed was found.  So
    [/filtroritmo bullet nonsense] leaves the filter [bullet], and
    [/filtroritmo nonsense] leaves the filter as it was. *)
Theorem C4_set_speed_filter (w : World) (args : list string) (s : State) :
  let validos := filter (λ r, r ∈ ritmos_validos) (map str_lower args) in
  let st := exec (definir_filtro_ritmo w args) s in
  (validos ≠ [] →
     ritmos_permitidos (dados st) = validos ∧
     (∀ r, r ∈ ritmos_permitidos (dados st) ↔
           r ∈ map str_lower args ∧ r ∈ ritmos_validos) ∧
     dados st = com_ritmos validos (dados s) ∧
     arquivo st = Some (dados_para_salvar w (dados st))) ∧
  (validos = [] →
     dados st = dados s ∧ arquivo st = arquivo s ∧
     replies st = replies s ++ [msg_nenhum_ritmo]) ∧
  (args ≠ [] → subcomando args = false →
     filtro_ritmo w args = definir_filtro_ritmo w args) ∧
  ritmos_permitidos (dados (exec (filtro_ritmo w ["bullet"; "nonsense"]) s)) = ["bullet"] ∧
  dados (exec (filtro_ritmo w ["nonsense"]) s) = dados s.
Proof.
  intros validos st.
  assert (novos_ritmos_de args = validos) as Hnovos by apply novos_ritmos_de_filter.
  pose proof (exec_definir_filtro_ritmo w args s) as E.
  cbv zeta in E. rewrite Hnovos in E.
  unfold st, exec. rewrite E. clear E. split_and!.
  - intros Hne. apply truthy_list_true in Hne. rewrite Hne.
    cbn [snd dados arquivo with_replies apos_log with_log with_arquivo with_dados
         com_ritmos ritmos_permitidos].
    split_and!; try reflexivity.
    intros r. unfold validos. rewrite list_elem_of_filter. tauto.
  - intros ->. cbn [truthy_list snd]. now split_and!.
  - apply filtro_ritmo_definir.
  - reflexivity.
  - reflexivity.
Qed.


(** ** The scheduled cycle only looks at the members of the filter *)

Section MesmoFiltro.

Variables (w : World) (chat : Z).

Lemma mesmo_filtro_partidas s1 s2 :
  mesmo_filtro s1 s2 →
  partidas_notificadas (dados s1) = partidas_notificadas (dados s2).
Proof. intros (Hd & _). unfold com_ritmos in Hd. congruence. Qed.

Lemma mesmo_filtro_gms s1 s2 :
  mesmo_filtro s1 s2 → gms_a_monitorar (dados s1) = gms_a_monitorar (dados s2).
Proof. intros (Hd & _). unfold com_ritmos in Hd. congruence. Qed.

Lemma mesmo_filtro_chat s1 s2 :
  mesmo_filtro s1 s2 → chat_id (dados s1) = chat_id (dados s2).
Proof. intros (Hd & _). unfold com_ritmos in Hd. congruence. Qed.

Lemma mesmo_filtro_get gm s1 s2 :
  mesmo_filtro s1 s2 → mesmo_filtro (apos_get w gm s1) (apos_get w gm s2).
Proof.
  intros (Hd & Hm & Hc & Hr & Hs & Hp & Hl & Hj). unfold mesmo_filtro, apos_get.
  cbn [dados clock requests sends replies log jogos_encontrados].
  rewrite Hc, Hr. now split_and!.
Qed.

Lemma mesmo_filtro_log r s1 s2 :
  mesmo_filtro s1 s2 → mesmo_filtro (apos_log r s1) (apos_log r s2).
Proof.
  intros (Hd & Hm & Hc & Hr & Hs & Hp & Hl & Hj). unfold mesmo_filtro, apos_log, with_log.
  cbn [dados clock requests sends replies log jogos_encontrados].
  rewrite Hl. now split_and!.
Qed.

Lemma mesmo_filtro_send c text ok s1 s2 :
  mesmo_filtro s1 s2 → mesmo_filtro (apos_send c text ok s1) (apos_send c text ok s2).
Proof.
  intros (Hd & Hm & Hc & Hr & Hs & Hp & Hl & Hj). unfold mesmo_filtro, apos_send.
  cbn [dados clock requests sends replies log jogos_encontrados].
  rewrite Hc, Hs. now split_and!.
Qed.

Lemma mesmo_filtro_marcar g s1 s2 :
  mesmo_filtro s1 s2 → mesmo_filtro (apos_marcar w g s1) (apos_marcar w g s2).
Proof.
  intros H. pose proof (mesmo_filtro_partidas _ _ H) as Hn.
  destruct H as (Hd & Hm & Hc & Hr & Hs & Hp & Hl & Hj).
  unfold mesmo_filtro, apos_marcar, apos_log, with_log, with_arquivo, with_dados.
  cbn [dados clock requests sends replies log jogos_encontrados].
  rewrite Hl, Hn. split_and!; auto.
  unfold com_ritmos, com_partidas in *. cbn in *. congruence.
Qed.

(** Related states take the same branch of the iteration. *)
Lemma verificar_partidas_iter_mesmo_filtro gm s1 s2 :
  mesmo_filtro s1 s2 →
  ∃ r st1 st2,
    verificar_partidas_iter w chat gm s1 = (r, st1) ∧
    verificar_partidas_iter w chat gm s2 = (r, st2) ∧
    (r = Val tt ∨ r = Continue) ∧
    mesmo_filtro st1 st2.
Proof.
  intros H.
  pose proof (mesmo_filtro_partidas _ _ H) as Hn.
  assert (clock s1 = clock s2) as Hc by apply H.
  assert (∀ x, ritmo_permitido (ritmos_permitidos (dados s1)) x =
               ritmo_permitido (ritmos_permitidos (dados s2)) x) as Hperm.
  { intros x. apply ritmo_permitido_ext, H. }
  destruct (client_get w (clock s1) (url_current_game gm)) as [resp|] eqn:Hget.
  2: { eexists _, _, _. rewrite !iter_http_error by congruence.
       split_and!; auto. now apply mesmo_filtro_log, mesmo_filtro_get. }
  assert (client_get w (clock s2) (url_current_game gm) = Some resp) as Hget2
    by congruence.
  destruct (decide (status_code resp = 200)) as [Hs|Hs].
  2: { eexists _, _, _.
       rewrite (iter_not_200 w chat gm s1 resp), (iter_not_200 w chat gm s2 resp) by done.
       split_and!; auto. now apply mesmo_filtro_get. }
  destruct (json resp) as [p|] eqn:Hj.
  2: { eexists _, _, _.
       rewrite (iter_json_error w chat gm s1 resp), (iter_json_error w chat gm s2 resp)
         by done.
       split_and!; auto. now apply mesmo_filtro_log, mesmo_filtro_get. }
  destruct (malformada p) eqn:Hm.
  { eexists _, _, _.
    rewrite (iter_malformada w chat gm s1 resp p), (iter_malformada w chat gm s2 resp p)
      by done.
    split_and!; auto. now apply mesmo_filtro_get. }
  apply malformada_false in Hm as (i & o & Hid & Hne & Hopp).
  destruct (ritmo_permitido (ritmos_permitidos (dados s1))
              (str_lower (default "" (pt_speed p)))) eqn:Hr.
  2: { eexists _, _, _.
       rewrite (iter_ritmo_filtrado w chat gm s1 resp p i o),
               (iter_ritmo_filtrado w chat gm s2 resp p i o) by (done || congruence).
       split_and!; auto. now apply mesmo_filtro_get. }
  assert (ritmo_permitido (ritmos_permitidos (dados s2))
            (str_lower (default "" (pt_speed p))) = true) as Hr2 by congruence.
  destruct (decide (i ∈ partidas_notificadas (dados s1))) as [Hin|Hin].
  { eexists _, _, _.
    rewrite (iter_ja_notificada w chat gm s1 resp p i o),
            (iter_ja_notificada w chat gm s2 resp p i o) by (done || congruence).
    split_and!; auto. now apply mesmo_filtro_get. }
  assert (i ∉ partidas_notificadas (dados s2)) as Hin2 by congruence.
  destruct (pt_white_name p) as [white|] eqn:Hw.
  2: { eexists _, _, _.
       rewrite (iter_key_error w chat gm s1 resp p i o),
               (iter_key_error w chat gm s2 resp p i o) by done.
       split_and!; auto. now apply mesmo_filtro_log, mesmo_filtro_get. }
  destruct (bot_send_message w (S (clock s1)) chat (mensagem_de gm p i o white)) eqn:Hsend.
  - eexists _, _, _.
    rewrite (iter_send_ok w chat gm s1 resp p i o Hget Hs Hj Hid Hne Hopp Hr Hin
               white Hw Hsend).
    rewrite Hc in Hsend.
    rewrite (iter_send_ok w chat gm s2 resp p i o Hget2 Hs Hj Hid Hne Hopp Hr2 Hin2
               white Hw Hsend).
    split_and!; auto.
    now apply mesmo_filtro_marcar, mesmo_filtro_send, mesmo_filtro_get.
  - eexists _, _, _.
    rewrite (iter_send_error w chat gm s1 resp p i o Hget Hs Hj Hid Hne Hopp Hr Hin
               white Hw Hsend).
    rewrite Hc in Hsend.
    rewrite (iter_send_error w chat gm s2 resp p i o Hget2 Hs Hj Hid Hne Hopp Hr2 Hin2
               white Hw Hsend).
    split_and!; auto.
    now apply mesmo_filtro_log, mesmo_filtro_send, mesmo_filtro_get.
Qed.

Lemma for_in_mesmo_filtro gms s1 s2 :
  mesmo_filtro s1 s2 →
  ∃ st1 st2,
    for_in gms (verificar_partidas_iter w chat) s1 = (Val tt, st1) ∧
    for_in gms (verificar_partidas_iter w chat) s2 = (Val tt, st2) ∧
    mesmo_filtro st1 st2.
Proof.
  revert s1 s2. induction gms as [|gm gms IH]; intros s1 s2 H.
  - now exists s1, s2.
  - destruct (verificar_partidas_iter_mesmo_filtro gm s1 s2 H)
      as (r & t1 & t2 & E1 & E2 & Hr & Ht).
    destruct (IH t1 t2 Ht) as (st1 & st2 & F1 & F2 & Hst).
    exists st1, st2. cbn [for_in]. rewrite E1, E2.
    now destruct Hr as [-> | ->].
Qed.

End MesmoFiltro.

Lemma verificar_partidas_mesmo_filtro (w : World) (s1 s2 : State) :
  mesmo_filtro s1 s2 →
  mesmo_filtro (exec (verificar_partidas w) s1) (exec (verificar_partidas w) s2).
Proof.
  intros H. pose proof (mesmo_filtro_chat _ _ H) as Hchat.
  pose proof (mesmo_filtro_gms _ _ H) as Hgms.
  destruct (truthy_chat_cases (chat_id (dados s1))) as [Hc | (chat & Hc & Hne)].
  - unfold exec. rewrite !verificar_partidas_sem_chat by congruence.
    now apply mesmo_filtro_log.
  - unfold exec.
    rewrite (verificar_partidas_com_chat w s1 chat), (verificar_partidas_com_chat w s2 chat)
      by congruence.
    rewrite <- Hgms.
    edestruct (for_in_mesmo_filtro w chat (gms_a_monitorar (dados s1)))
      as (st1 & st2 & F1 & F2 & Hst);
      [apply mesmo_filtro_log, H|].
    rewrite F1, F2. exact Hst.
Qed.

(** Dropping the repeated entries of the filter is such a change. *)
Lemma mesmo_filtro_remove_dups (s : State) :
  mesmo_filtro s (with_dados (com_ritmos (remove_dups (ritmos_permitidos (dados s)))
                                         (dados s)) s).
Proof.
  unfold mesmo_filtro, with_dados, com_ritmos.
  cbn [dados clock requests sends replies log jogos_encontrados gms_a_monitorar
       partidas_notificadas ritmos_permitidos chat_id].
  split_and!; auto. intros r. now rewrite elem_of_remove_dups.
Qed.

(** C9. The branch of [filtro_ritmo] that sets the filter stores the
    valid inputs as the list the comprehension builds: in input order and
    with repetitions kept, in [dados] and in the state file; so
    [/filtroritmo blitz blitz] leaves a filter of two entries.  The
    scheduled cycle tests membership only: two states whose filters have
    the same members (for instance a filter and the same filter without
    its repetitions) lead to the same requests, the same sends and the
    same dedup set. *)
Theorem C9_speed_filter_is_a_sequence (w : World) (args : list string) (s : State) :
  let validos := filter (λ r, r ∈ ritmos_validos) (map str_lower args) in
  let st := exec (definir_filtro_ritmo w args) s in
  (validos ≠ [] →
     ritmos_permitidos (dados st) = validos ∧
     (arq_ritmos_permitidos <$> arquivo st) = Some validos) ∧
  ritmos_permitidos (dados (exec (filtro_ritmo w ["blitz"; "blitz"]) s))
    = ["blitz"; "blitz"] ∧
  (∀ w' s1 s2,
     mesmo_filtro s1 s2 →
     let fim1 := exec (verificar_partidas w') s1 in
     let fim2 := exec (verificar_partidas w') s2 in
     requests fim1 = requests fim2 ∧ sends fim1 = sends fim2 ∧
     partidas_notificadas (dados fim1) = partidas_notificadas (dados fim2)) ∧
  (∀ w' s',
     let sem_repetidos :=
       with_dados (com_ritmos (remove_dups (ritmos_permitidos (dados s'))) (dados s')) s' in
     sends (exec (verificar_partidas w') s') =
     sends (exec (verificar_partidas w') sem_repetidos)).
Proof.
  intros validos st.
  assert (novos_ritmos_de args = validos) as Hnovos by apply novos_ritmos_de_filter.
  pose proof (exec_definir_filtro_ritmo w args s) as E.
  cbv zeta in E. rewrite Hnovos in E.
  split_and!.
  - intros Hne. apply truthy_list_true in Hne. rewrite Hne in E.
    unfold st, exec. now rewrite E.
  - reflexivity.
  - intros w' s1 s2 H.
    pose proof (verificar_partidas_mesmo_filtro w' s1 s2 H) as Hfim.
    cbv zeta. split_and!; try apply Hfim.
    now apply mesmo_filtro_partidas.
  - intros w' s'.
    apply (verificar_partidas_mesmo_filtro w' s' _ (mesmo_filtro_remove_dups s')).
Qed.

(** ** One iteration of the manual check, case by case *)

Section IterationManual.

Variable w : World.
Variables (chat : Z) (gm : string) (s : State).

Let erro (e : exn) : log_record := LError ("Erro na verificação manual de " +:+ gm) e.

Lemma agora_http_error :
  client_get w (clock s) (url_current_game gm) = None →
  verificar_agora_iter w chat gm s =
    (Val tt, apos_log (erro HTTPError) (apos_get w gm s)).
Proof.
  intros H. unfold_bot. unfold apos_log, apos_get. now rewrite H.
Qed.

Lemma agora_not_200 resp :
  client_get w (clock s) (url_current_game gm) = Some resp →
  status_code resp ≠ 200 →
  verificar_agora_iter w chat gm s = (Val tt, apos_get w gm s).
Proof.
  intros H Hs. unfold_bot. unfold apos_get. rewrite H.
  apply Z.eqb_neq in Hs. now rewrite Hs.
Qed.

Lemma agora_json_error resp :
  client_get w (clock s) (url_current_game gm) = Some resp →
  status_code resp = 200 → json resp = None →
  verificar_agora_iter w chat gm s =
    (Val tt, apos_log (erro JSONDecodeError) (apos_incr (apos_get w gm s))).
Proof.
  intros H Hs Hj. unfold_bot. unfold apos_log, apos_incr, apos_get.
  now rewrite H, Hs, Hj.
Qed.

Lemma agora_malformada resp p :
  client_get w (clock s) (url_current_game gm) = Some resp →
  status_code resp = 200 → json resp = Some p → malformada p = true →
  verificar_agora_iter w chat gm s = (Continue, apos_incr (apos_get w gm s)).
Proof.
  intros H Hs Hj Hm. unfold_bot. unfold apos_incr, apos_get. rewrite H, Hs, Hj.
  cbn [Z.eqb Pos.eqb]. unfold malformada in Hm.
  destruct (pt_id p) as [i|], (pt_opponent p) as [o|]; try reflexivity.
  cbn [with_jogos]. now rewrite Hm.
Qed.

Lemma agora_send resp p id_partida opponent :
  client_get w (clock s) (url_current_game gm) = Some resp →
  status_code resp = 200 → json resp = Some p →
  pt_id p = Some id_partida → id_partida ≠ "" → pt_opponent p = Some opponent →
  let mensagem := mensagem_manual_de gm p id_partida opponent in
  let ok := bot_send_message w (S (clock s)) chat mensagem in
  verificar_agora_iter w chat gm s =
    (Val tt,
     (if ok then id else apos_log (erro TelegramError))
       (apos_send chat mensagem ok (apos_incr (apos_get w gm s)))).
Proof.
  intros H Hs Hj Hid Hne Hopp mensagem ok. unfold_bot.
  unfold apos_log, apos_send, apos_incr, apos_get. rewrite H, Hs, Hj, Hid, Hopp.
  cbn [Z.eqb Pos.eqb]. destruct id_partida; [done|].
  cbn [truthy_str negb with_jogos clock].
  unfold ok, mensagem, mensagem_manual_de.
  now destruct (bot_send_message _ _ _ _).
Qed.

End IterationManual.

Ltac project_state :=
  unfold apos_marcar, apos_log, apos_incr, apos_send, apos_get,
    with_log, with_jogos, with_arquivo, with_dados, with_replies;
  cbn [dados arquivo clock requests sends replies log jogos_encontrados].

Ltac close_count :=
  repeat first [ rewrite decide_True by (cbn; done)
               | rewrite decide_False by (cbn; done) ];
  cbn; lia.

Lemma verificar_agora_iter_spec (w : World) (chat : Z) (gm : string) (s : State) :
  ∃ r st news,
    verificar_agora_iter w chat gm s = (r, st) ∧
    (r = Val tt ∨ r = Continue) ∧
    agora_post chat [gm] s st
      [(url_current_game gm, client_get w (clock s) (url_current_game gm))] news.
Proof.
  unfold agora_post.
  destruct (client_get w (clock s) (url_current_game gm)) as [resp|] eqn:Hget.
  2: { eexists _, _, []. split; [now apply agora_http_error|].
       project_state. rewrite Hget, app_nil_r. split_and!; auto; try close_count. }
  destruct (decide (status_code resp = 200)) as [Hs|Hs].
  2: { eexists _, _, []. split; [eapply agora_not_200; eauto|].
       project_state. rewrite Hget, app_nil_r. apply Z.eqb_neq in Hs.
       cbn [filter list_filter is_200 bem_formada snd]. rewrite Hs.
       split_and!; auto; try close_count. }
  destruct (json resp) as [p|] eqn:Hj.
  2: { eexists _, _, []. split; [eapply agora_json_error; eauto|].
       project_state. rewrite Hget, app_nil_r.
       cbn [filter list_filter is_200 bem_formada snd]. rewrite Hs, Hj.
       split_and!; auto; try close_count.
 }
  destruct (malformada p) eqn:Hm.
  { eexists _, _, []. split; [eapply agora_malformada; eauto|].
    project_state. rewrite Hget, app_nil_r.
    cbn [filter list_filter is_200 bem_formada snd]. rewrite Hs, Hj, Hm.
    split_and!; auto; try close_count. }
  pose proof Hm as Hm'.
  apply malformada_false in Hm as (i & o & Hid & Hne & Hopp).
  pose proof (agora_send w chat gm s resp p i o Hget Hs Hj Hid Hne Hopp) as E.
  cbv zeta in E.
  destruct (bot_send_message w (S (clock s)) chat (mensagem_manual_de gm p i o));
    (eexists _, _, [_]; split; [exact E|]);
    cbn [filter list_filter is_200 bem_formada snd]; rewrite Hs, Hj, Hm';
    project_state; rewrite Hget; split_and!; auto; try close_count.
Qed.

Lemma agora_post_app chat gm gms s s1 st reqs1 news1 reqs news :
  agora_post chat [gm] s s1 reqs1 news1 →
  agora_post chat gms s1 st reqs news →
  agora_post chat (gm :: gms) s st (reqs1 ++ reqs) (news1 ++ news).
Proof.
  intros (A1 & A2 & A3 & A4 & A5 & A6 & A7 & A8 & A9)
         (B1 & B2 & B3 & B4 & B5 & B6 & B7 & B8 & B9).
  unfold agora_post. rewrite B1, A1, B3, A3, B4, B5, B6, B7, A7.
  rewrite !filter_app, !length_app, map_app, A2, B2, A8, B8, <- !app_assoc.
  split_and!; auto; try lia. now apply Forall_app.
Qed.

(** The loop of the manual check. *)
Lemma verificar_agora_loop_spec (w : World) (chat : Z) (gms : list string) (s : State) :
  ∃ st reqs news,
    for_in gms (verificar_agora_iter w chat) s = (Val tt, st) ∧
    agora_post chat gms s st reqs news.
Proof.
  revert s. induction gms as [|gm gms IH]; intros s.
  - exists s, [], []. split; [reflexivity|]. unfold agora_post.
    rewrite !app_nil_r. cbn. split_and!; auto; lia.
  - destruct (verificar_agora_iter_spec w chat gm s) as (r & s1 & news1 & E & Hr & H1).
    destruct (IH s1) as (st & reqs & news & Eloop & H2).
    eexists st, _, _. split.
    + cbn [for_in]. rewrite E. now destruct Hr as [-> | ->].
    + eapply agora_post_app; eauto.
Qed.

(** The manual check with a registered chat: the first reply, the loop
    with the counter reset, and the closing reply when the counter is 0. *)
Lemma verificar_agora_com_chat (w : World) (s : State) (chat : Z) :
  chat_id (dados s) = Some chat → chat ≠ 0 →
  verificar_agora w s =
    let s0 := with_jogos 0 (with_replies (replies s ++ ["Verificando os GMs, um momento..."]) s) in
    let st := exec (for_in (gms_a_monitorar (dados s)) (verificar_agora_iter w chat)) s0 in
    (Val tt, if (jogos_encontrados st =? 0)%nat
             then with_replies (replies st ++ [msg_ninguem]) st else st).
Proof.
  intros Hc Hne. cbv zeta.
  set (s0 := with_jogos 0 (with_replies
               (replies s ++ ["Verificando os GMs, um momento..."]) s)).
  destruct (verificar_agora_loop_spec w chat (gms_a_monitorar (dados s)) s0)
    as (st & reqs & news & E & _).
  unfold exec. rewrite E. cbn [snd].
  unfold verificar_agora, bind, get_dados, reply_text at 1.
  cbn [dados with_replies]. rewrite Hc.
  destruct chat; try done;
    match goal with
    | |- context [for_in ?l ?b ?x] => change (for_in l b x) with (for_in l b s0)
    end;
    rewrite E; unfold reply_text;
    now destruct (jogos_encontrados st =? 0)%nat.
Qed.

Lemma verificar_agora_sem_chat (w : World) (s : State) :
  truthy_chat (chat_id (dados s)) = false →
  verificar_agora w s =
    (Val tt, with_replies (replies s ++
       ["Verificando os GMs, um momento...";
        "Por favor, use /start primeiro para eu saber quem você é."]) s).
Proof.
  intros Hc. unfold verificar_agora, bind, get_dados, reply_text, with_replies.
  cbn [dados arquivo clock requests sends replies log jogos_encontrados].
  destruct (chat_id (dados s)) as [[| |]|]; try discriminate;
    cbn [dados arquivo clock requests sends replies log jogos_encontrados];
    now rewrite <- app_assoc.
Qed.

(** The manual iteration neither reads nor writes [dados]. *)
Lemma verificar_agora_iter_dados (w : World) (chat : Z) (gm : string)
    (d : Dados) (s : State) :
  verificar_agora_iter w chat gm (with_dados d s) =
    let '(r, st) := verificar_agora_iter w chat gm s in (r, with_dados d st).
Proof.
  destruct (client_get w (clock s) (url_current_game gm)) as [resp|] eqn:Hget.
  2: now rewrite (agora_http_error w chat gm (with_dados d s) Hget),
                 (agora_http_error w chat gm s Hget).
  destruct (decide (status_code resp = 200)) as [Hs|Hs].
  2: now rewrite (agora_not_200 w chat gm (with_dados d s) resp Hget Hs),
                 (agora_not_200 w chat gm s resp Hget Hs).
  destruct (json resp) as [p|] eqn:Hj.
  2: now rewrite (agora_json_error w chat gm (with_dados d s) resp Hget Hs Hj),
                 (agora_json_error w chat gm s resp Hget Hs Hj).
  destruct (malformada p) eqn:Hm.
  { now rewrite (agora_malformada w chat gm (with_dados d s) resp p Hget Hs Hj Hm),
                (agora_malformada w chat gm s resp p Hget Hs Hj Hm). }
  apply malformada_false in Hm as (i & o & Hid & Hne & Hopp).
  rewrite (agora_send w chat gm (with_dados d s) resp p i o Hget Hs Hj Hid Hne Hopp),
          (agora_send w chat gm s resp p i o Hget Hs Hj Hid Hne Hopp).
  cbv zeta. cbn [with_dados clock].
  now destruct (bot_send_message _ _ _ _).
Qed.

Lemma for_in_agora_dados (w : World) (chat : Z) (gms : list string)
    (d : Dados) (s : State) :
  for_in gms (verificar_agora_iter w chat) (with_dados d s) =
    let '(r, st) := for_in gms (verificar_agora_iter w chat) s in (r, with_dados d st).
Proof.
  revert s. induction gms as [|gm gms IH]; intros s; [reflexivity|].
  cbn [for_in]. rewrite verificar_agora_iter_dados.
  destruct (verificar_agora_iter w chat gm s) as [[| |e] s1]; [apply IH|apply IH|reflexivity].
Qed.

Lemma verificar_agora_dados (w : World) (d : Dados) (s : State) :
  gms_a_monitorar d = gms_a_monitorar (dados s) →
  chat_id d = chat_id (dados s) →
  exec (verificar_agora w) (with_dados d s) = with_dados d (exec (verificar_agora w) s).
Proof.
  intros Hg Hc.
  destruct (truthy_chat_cases (chat_id (dados s))) as [Hf | (chat & Hs & Hne)].
  - unfold exec. rewrite !verificar_agora_sem_chat; [reflexivity|assumption|].
    cbn [with_dados dados]. congruence.
  - unfold exec.
    rewrite (verificar_agora_com_chat w s chat Hs Hne).
    rewrite (verificar_agora_com_chat w (with_dados d s) chat)
      by (cbn [with_dados dados]; congruence).
    cbv zeta.
    assert (∀ m, with_jogos 0 (with_replies (replies (with_dados d s) ++ m) (with_dados d s))
                 = with_dados d (with_jogos 0 (with_replies (replies s ++ m) s))) as ->
      by reflexivity.
    change (dados (with_dados d s)) with d. rewrite Hg. unfold exec.
    rewrite for_in_agora_dados.
    destruct (for_in _ _ (with_jogos 0 _)) as [r st]. cbn [snd with_dados jogos_encontrados].
    now destruct (jogos_encontrados st =? 0)%nat.
Qed.

Lemma exec_verificar_agora_dados (w : World) (s : State) :
  dados (exec (verificar_agora w) s) = dados s ∧
  arquivo (exec (verificar_agora w) s) = arquivo s.
Proof.
  destruct (truthy_chat_cases (chat_id (dados s))) as [Hf | (chat & Hs & Hne)].
  - unfold exec. now rewrite verificar_agora_sem_chat.
  - unfold exec. rewrite (verificar_agora_com_chat w s chat Hs Hne). cbv zeta.
    destruct (verificar_agora_loop_spec w chat (gms_a_monitorar (dados s))
                (with_jogos 0 (with_replies
                   (replies s ++ ["Verificando os GMs, um momento..."]) s)))
      as (st & reqs & news & E & Hpost).
    unfold exec. rewrite E. cbn [snd].
    destruct Hpost as (_ & _ & _ & Hd & Ha & _).
    now destruct (jogos_encontrados st =? 0)%nat.
Qed.

Lemma bem_formada_false_agendada (w : World) (chat : Z) (gm : string) (s : State) :
  bem_formada (client_get w (clock s) (url_current_game gm)) = false →
  sends (exec (verificar_partidas_iter w chat gm) s) = sends s.
Proof.
  intros Hb. unfold exec.
  destruct (client_get w (clock s) (url_current_game gm)) as [resp|] eqn:Hget.
  2: now rewrite iter_http_error.
  destruct (decide (status_code resp = 200)) as [Hs|Hs].
  2: now rewrite (iter_not_200 w chat gm s resp).
  destruct (json resp) as [p|] eqn:Hj.
  2: now rewrite (iter_json_error w chat gm s resp).
  cbn [bem_formada] in Hb. rewrite Hs, Hj in Hb. cbn in Hb. apply negb_false_iff in Hb.
  now rewrite (iter_malformada w chat gm s resp p).
Qed.

Lemma bem_formada_false_manual (w : World) (chat : Z) (gm : string) (s : State) :
  bem_formada (client_get w (clock s) (url_current_game gm)) = false →
  sends (exec (verificar_agora_iter w chat gm) s) = sends s.
Proof.
  intros Hb. unfold exec.
  destruct (client_get w (clock s) (url_current_game gm)) as [resp|] eqn:Hget.
  2: now rewrite agora_http_error.
  destruct (decide (status_code resp = 200)) as [Hs|Hs].
  2: now rewrite (agora_not_200 w chat gm s resp).
  destruct (json resp) as [p|] eqn:Hj.
  2: now rewrite (agora_json_error w chat gm s resp).
  cbn [bem_formada] in Hb. rewrite Hs, Hj in Hb. cbn in Hb. apply negb_false_iff in Hb.
  now rewrite (agora_malformada w chat gm s resp p).
Qed.

Lemma bem_formada_is_200 (r : option Response) :
  bem_formada r = true → is_200 r = true.
Proof.
  destruct r as [resp|]; [|discriminate]. cbn. now intros [? _]%andb_true_iff.
Qed.

Lemma resposta_malformada_not_bem_formada (r : option Response) :
  resposta_malformada r = true → bem_formada r = false.
Proof.
  destruct r as [resp|]; [|reflexivity]. cbn.
  intros [-> Hm]%andb_true_iff. destruct (json resp); [|discriminate].
  now rewrite Hm.
Qed.

(** C1 (as amended). One iteration of the manual check makes the same
    request as one iteration of the scheduled cycle and, like it, sends
    nothing unless the answer is a 200 with a well-formed game document.
    For such an answer it always calls [send_message], with a text that
    names the player, the opponent, the speed and the link of the game:
    neither the speed filter nor the dedup set is read.  The manual check
    never changes [dados] or the state file, and its run does not depend
    on the speed filter or on the dedup set at all. *)
Theorem C1_manual_check_applies_no_filter
    (w : World) (chat : Z) (gm : string) (s : State) :
  let manual := exec (verificar_agora_iter w chat gm) s in
  let agendada := exec (verificar_partidas_iter w chat gm) s in
  let r := client_get w (clock s) (url_current_game gm) in
  (* the same fetch *)
  requests manual = requests agendada ∧
  (* the same skipping of non-200 and malformed answers *)
  (bem_formada r = false → sends manual = sends s ∧ sends agendada = sends s) ∧
  (* a well-formed game is always reported *)
  (∀ resp p id_partida opponent,
     r = Some resp → status_code resp = 200 → json resp = Some p →
     pt_id p = Some id_partida → id_partida ≠ "" → pt_opponent p = Some opponent →
     let oponente := default "Desconhecido" opponent in
     let ritmo := str_capitalize (default "Desconhecido" (pt_speed p)) in
     let link := "https://lichess.org/" +:+ id_partida in
     let text := mensagem_manual gm oponente ritmo link in
     sends manual = sends s ++ [(chat, text, bot_send_message w (S (clock s)) chat text)] ∧
     occurs_in (str_capitalize gm) text ∧ occurs_in oponente text ∧
     occurs_in ritmo text ∧ occurs_in link text) ∧
  (* the configuration is never written *)
  (dados manual = dados s ∧ arquivo manual = arquivo s) ∧
  (dados (exec (verificar_agora w) s) = dados s ∧
   arquivo (exec (verificar_agora w) s) = arquivo s) ∧
  (* and neither the filter nor the dedup set is read *)
  (∀ ritmos partidas,
     let d := com_ritmos ritmos (com_partidas partidas (dados s)) in
     exec (verificar_agora w) (with_dados d s) = with_dados d (exec (verificar_agora w) s)).
Proof.
  intros manual agendada r.
  destruct (verificar_agora_iter_spec w chat gm s) as (ra & sa & news & Ea & _ & Ha).
  destruct (verificar_partidas_iter_spec w chat gm s) as (rp & sp & Ep & _ & Hreq & _).
  assert (manual = sa) as Hm by (unfold manual, exec; now rewrite Ea).
  assert (agendada = sp) as Hp by (unfold agendada, exec; now rewrite Ep).
  destruct Ha as (A1 & _ & _ & A4 & A5 & _).
  split_and!.
  - now rewrite Hm, Hp, A1, Hreq.
  - intros Hb. split.
    + now apply bem_formada_false_manual.
    + now apply bem_formada_false_agendada.
  - intros resp p i o Hget Hs Hj Hid Hne Hopp oponente ritmo link text.
    pose proof (agora_send w chat gm s resp p i o Hget Hs Hj Hid Hne Hopp) as E.
    cbv zeta in E. split_and!.
    + unfold manual, exec. rewrite E.
      fold text. now destruct (bot_send_message _ _ _ _).
    + unfold text, mensagem_manual. find_occurrence.
    + unfold text, mensagem_manual. find_occurrence.
    + unfold text, mensagem_manual. find_occurrence.
    + unfold text, mensagem_manual. find_occurrence.
  - now rewrite Hm.
  - now rewrite Hm.
  - apply exec_verificar_agora_dados.
  - apply exec_verificar_agora_dados.
  - intros ritmos partidas d. now apply verificar_agora_dados.
Qed.

(** The claim as stated fails: with the filter set to bullet and alice in
    a blitz game, the scheduled cycle sends nothing while the manual check
    reports the game. *)
Lemma C1_counterexample :
  ritmos_permitidos ex_dados_bullet = ["bullet"] ∧
  pt_speed ex_partida = Some "blitz" ∧
  sends (exec (verificar_partidas ex_world) (ex_state ex_dados_bullet)) = [] ∧
  sends (exec (verificar_agora ex_world) (ex_state ex_dados_bullet)) =
    [(42, mensagem_manual "alice" "bob" "Blitz" "https://lichess.org/g1", true)].
Proof. now vm_compute. Qed.

(** C8. With a chat registered, the counter of the manual check ends as
    the number of requests answered with HTTP 200, whatever the document
    was; one message is sent per well-formed 200 answer; the closing reply
    that nobody is playing is sent exactly when the counter is 0.  So when
    every 200 answer is malformed nothing is sent, and as soon as there is
    one such answer the closing reply is left out as well. *)
Theorem C8_counter_counts_every_200 (w : World) (s : State) (chat : Z) :
  chat_id (dados s) = Some chat → chat ≠ 0 →
  ∃ st reqs news,
    verificar_agora w s = (Val tt, st) ∧
    requests st = requests s ++ reqs ∧
    map fst reqs = map url_current_game (gms_a_monitorar (dados s)) ∧
    sends st = sends s ++ news ∧
    let n200 := length (filter (λ r, is_200 r.2 = true) reqs) in
    jogos_encontrados st = n200 ∧
    length news = length (filter (λ r, bem_formada r.2 = true) reqs) ∧
    replies st = replies s ++ "Verificando os GMs, um momento..." ::
                   (if (n200 =? 0)%nat then [msg_ninguem] else []) ∧
    (Forall (λ r, is_200 r.2 = true → resposta_malformada r.2 = true) reqs →
       news = [] ∧
       (n200 ≠ 0%nat →
          replies st = replies s ++ ["Verificando os GMs, um momento..."])).
Proof.
  intros Hc Hne.
  set (s0 := with_jogos 0 (with_replies
               (replies s ++ ["Verificando os GMs, um momento..."]) s)).
  destruct (verificar_agora_loop_spec w chat (gms_a_monitorar (dados s)) s0)
    as (st & reqs & news & E & Hpost).
  destruct Hpost as (P1 & P2 & P3 & P4 & P5 & P6 & P7 & P8 & P9).
  cbn [s0 with_jogos with_replies requests sends replies jogos_encontrados] in P1, P3, P6, P7.
  rewrite Nat.add_0_l in P7.
  rewrite (verificar_agora_com_chat w s chat Hc Hne). cbv zeta. fold s0.
  unfold exec. rewrite E. cbn [snd]. rewrite P7.
  eexists _, reqs, news. split; [reflexivity|].
  assert (∀ st', jogos_encontrados
            (if (length (filter (λ r, is_200 r.2 = true) reqs) =? 0)%nat
             then with_replies st' st else st) = jogos_encontrados st) as Hj
    by (intros; now destruct (_ =? _)%nat).
  assert (replies (if (length (filter (λ r, is_200 r.2 = true) reqs) =? 0)%nat
                   then with_replies (replies st ++ [msg_ninguem]) st else st)
          = replies s ++ "Verificando os GMs, um momento..." ::
              (if (length (filter (λ r, is_200 r.2 = true) reqs) =? 0)%nat
               then [msg_ninguem] else [])) as Hrep.
  { destruct (_ =? _)%nat; cbn [with_replies replies]; rewrite P6;
      [now rewrite <- app_assoc | reflexivity]. }
  split_and!.
  - now destruct (_ =? _)%nat.
  - exact P2.
  - now destruct (_ =? _)%nat.
  - now rewrite Hj.
  - exact P8.
  - exact Hrep.
  - intros Hall.
    assert (filter (λ r : string * option Response, bem_formada r.2 = true) reqs = [])
      as Hnone.
    { clear -Hall. induction reqs as [|x reqs IH]; [reflexivity|].
      apply Forall_cons in Hall as [Hx Hall].
      rewrite filter_cons_False; [now apply IH|].
      intros Hb. pose proof (Hx (bem_formada_is_200 _ Hb)) as Hm.
      apply resposta_malformada_not_bem_formada in Hm. congruence. }
    rewrite Hnone in P8. split; [now apply length_zero_iff_nil|].
    intros Hn. rewrite Hrep. apply Nat.eqb_neq in Hn. now rewrite Hn.
Qed.

(** ** The registered chat *)

Lemma exec_start (w : World) (c : Z) (s : State) :
  ∃ st, start w c s = (Val tt, st) ∧
    dados st = mkDados (gms_a_monitorar (dados s)) (partidas_notificadas (dados s))
                       (ritmos_permitidos (dados s)) (Some c) ∧
    arquivo st = Some (dados_para_salvar w (dados st)) ∧
    sends st = sends s.
Proof. eexists. split; [reflexivity|]. now split_and!. Qed.

(** The commands that only edit the lists or reply: they send nothing and
    keep the registered chat. *)
Lemma comandos_de_edicao (w : World) (u : Update) (s : State) :
  match u with
  | CmdAjuda | CmdListarGms | CmdAdicionarGm _ | CmdRemoverGm _ | CmdFiltroRitmo _ => True
  | _ => False
  end →
  ∃ st, handle w u s = (Val tt, st) ∧
        sends st = sends s ∧ chat_id (dados st) = chat_id (dados s).
Proof.
  destruct u as [c| | | |args|args|args|]; try done; intros _; cbn [handle].
  - eexists. now split.
  - unfold listar_gms, bind, get_dados.
    destruct (truthy_list _); eexists; now split.
  - unfold adicionar_gm. destruct args as [|a args]; [eexists; now split|].
    unfold bind, get_dados. destruct (str_in _ _); eexists; now split.
  - unfold remover_gm. destruct args as [|a args]; [eexists; now split|].
    unfold bind, get_dados. destruct (str_in _ _); eexists; now split.
  - unfold filtro_ritmo. destruct args as [|a args]; [eexists; now split|].
    unfold definir_filtro_ritmo, bind, get_dados.
    destruct (String.eqb _ "ver");
      [destruct (truthy_list _); eexists; now split|].
    destruct (String.eqb _ "todos"); [eexists; now split|].
    destruct (truthy_list _); eexists; now split.
Qed.

(** Every update is handled without an exception; what is sent goes to
    the chat registered when the update arrives, and only [/start]
    changes the registered chat. *)
Lemma handle_spec (w : World) (u : Update) (s : State) :
  ∃ st news,
    handle w u s = (Val tt, st) ∧
    sends st = sends s ++ news ∧
    Forall (λ x, chat_id (dados s) = Some x.1.1) news ∧
    chat_id (dados st) =
      match u with CmdStart c => Some c | _ => chat_id (dados s) end.
Proof.
  destruct u as [c| | | |args|args|args|].
  - destruct (exec_start w c s) as (st & E & Hd & _ & Hs).
    exists st, []. rewrite app_nil_r, Hd. now split_and!.
  - destruct (comandos_de_edicao w CmdAjuda s I) as (st & E & Hs & Hc).
    exists st, []. rewrite app_nil_r. now split_and!.
  - cbn [handle].
    destruct (truthy_chat_cases (chat_id (dados s))) as [Hf | (chat & Hc & Hne)].
    + eexists _, []. rewrite verificar_agora_sem_chat by assumption.
      rewrite app_nil_r. now split_and!.
    + rewrite (verificar_agora_com_chat w s chat Hc Hne). cbv zeta.
      destruct (verificar_agora_loop_spec w chat (gms_a_monitorar (dados s))
                  (with_jogos 0 (with_replies
                     (replies s ++ ["Verificando os GMs, um momento..."]) s)))
        as (st & reqs & news & E & Hpost).
      unfold exec. rewrite E. cbn [snd].
      destruct Hpost as (_ & _ & P3 & P4 & _ & _ & _ & _ & P9).
      eexists _, news. split; [reflexivity|].
      split_and!.
      * now destruct (_ =? _)%nat.
      * rewrite Hc. eapply Forall_impl; [exact P9|]. cbn. now intros x ->.
      * destruct (_ =? _)%nat; cbn [with_replies dados]; now rewrite P4.
  - destruct (comandos_de_edicao w CmdListarGms s I) as (st & E & Hs & Hc).
    exists st, []. rewrite app_nil_r. now split_and!.
  - destruct (comandos_de_edicao w (CmdAdicionarGm args) s I) as (st & E & Hs & Hc).
    exists st, []. rewrite app_nil_r. now split_and!.
  - destruct (comandos_de_edicao w (CmdRemoverGm args) s I) as (st & E & Hs & Hc).
    exists st, []. rewrite app_nil_r. now split_and!.
  - destruct (comandos_de_edicao w (CmdFiltroRitmo args) s I) as (st & E & Hs & Hc).
    exists st, []. rewrite app_nil_r. now split_and!.
  - cbn [handle]. destruct (verificar_partidas_spec w s) as (st & E & Hcases).
    destruct Hcases as [(_ & Hd & _ & Hs & _) | (chat & ids & news & Hc & _ & Hpost)].
    + exists st, []. rewrite app_nil_r, Hd. now split_and!.
    + destruct Hpost as (_ & _ & _ & Pd & Psends & _ & _ & _ & Pshape).
      exists st, news. rewrite Pd. split_and!; auto.
      rewrite Hc. eapply Forall_impl; [exact Pshape|]. cbn. now intros x [-> _].
Qed.

(** While no [/start] arrives the registered chat stays, and everything
    that is sent goes to it. *)
Lemma sem_start_spec (w : World) (updates : list Update) (c : Z) (s : State) :
  Forall (λ u, ∀ c', u ≠ CmdStart c') updates →
  chat_id (dados s) = Some c →
  ∃ fim news,
    for_in updates (handle w) s = (Val tt, fim) ∧
    chat_id (dados fim) = Some c ∧
    sends fim = sends s ++ news ∧
    Forall (λ x, x.1.1 = c) news.
Proof.
  revert s. induction updates as [|u updates IH]; intros s Hno Hc.
  - exists s, []. rewrite app_nil_r. now split_and!.
  - apply Forall_cons in Hno as [Hu Hno].
    destruct (handle_spec w u s) as (s1 & news1 & E & Hs1 & Hto & Hc1).
    assert (chat_id (dados s1) = Some c) as Hc1'.
    { rewrite Hc1. destruct u; try assumption. now destruct (Hu effective_chat_id). }
    destruct (IH s1 Hno Hc1') as (fim & news & Efor & Hcf & Hsf & Htof).
    exists fim, (news1 ++ news). cbn [for_in]. rewrite E. split_and!; auto.
    + now rewrite Hsf, Hs1, app_assoc.
    + apply Forall_app. split; [|assumption].
      eapply Forall_impl; [exact Hto|]. cbn. intros x Hx. congruence.
Qed.

(** C10. [/start] stores the id of the chat it comes from as [chat_id],
    whatever was registered before, keeps the rest of [dados], and saves.
    From then on, until another [/start] arrives, every message the bot
    sends (in scheduled cycles and in manual checks) goes to that chat. *)
Theorem C10_start_overwrites_chat (w : World) (c : Z) (s : State) :
  let st := exec (start w c) s in
  dados st = mkDados (gms_a_monitorar (dados s)) (partidas_notificadas (dados s))
                     (ritmos_permitidos (dados s)) (Some c) ∧
  arquivo st = Some (dados_para_salvar w (dados st)) ∧
  (∀ w' updates,
     Forall (λ u, ∀ c', u ≠ CmdStart c') updates →
     ∃ fim news,
       for_in updates (handle w') st = (Val tt, fim) ∧
       chat_id (dados fim) = Some c ∧
       sends fim = sends st ++ news ∧
       Forall (λ x, x.1.1 = c) news).
Proof.
  intros st. destruct (exec_start w c s) as (st' & E & Hd & Ha & Hs).
  assert (st = st') as -> by (unfold st, exec; now rewrite E).
  split_and!; auto.
  intros w' updates Hno. apply sem_start_spec; [assumption|]. now rewrite Hd.
Qed.

(** ** The theorems at the example data *)

(** [elements] is an iteration order of sets. *)
Lemma enumerates_elements : enumerates elements.
Proof.
  intros n. split; [apply NoDup_elements|]. intros x. apply elem_of_elements.
Qed.

(** The scenario of the specification: alice's blitz game [g1] against bob
    is notified, with colour Brancas. *)
Lemma C2_filter_decision_witness :
  sends (exec (verificar_partidas_iter ex_world 42 "alice") (ex_state ex_dados)) =
    [(42, mensagem_automatica "alice" "bob" "blitz" "Brancas" "https://lichess.org/g1",
      true)].
Proof.
  refine (proj1 (proj2 (proj2
            (C2_filter_decision ex_world 42 "alice" (ex_state ex_dados)
               (mkResponse 200 (Some ex_partida)) ex_partida "g1" (Some "bob") "alice"
               eq_refl eq_refl eq_refl eq_refl _ eq_refl eq_refl))) _ _).
  - discriminate.
  - left. reflexivity.
  - apply not_elem_of_empty.
Defined.

(** Saving and loading a configuration with two notified games. *)
Lemma C3_persist_load_roundtrip_witness :
  dados (exec (carregar_dados ex_world)
           (exec (salvar_dados ex_world) (ex_state ex_dados_notificado)))
  = ex_dados_notificado.
Proof.
  exact (proj1 (C3_persist_load_roundtrip ex_world ex_world
                 (ex_state ex_dados_notificado)
                 (exec (salvar_dados ex_world) (ex_state ex_dados_notificado))
                 enumerates_elements eq_refl)).
Defined.

(** Marking [g1] twice. *)
Lemma C6_mark_notified_idempotent_witness :
  dados (exec (marcar_notificada ex_world "g1")
           (exec (marcar_notificada ex_world "g1") (ex_state ex_dados)))
  = dados (exec (marcar_notificada ex_world "g1") (ex_state ex_dados)).
Proof.
  exact (proj1 (C6_mark_notified_idempotent ex_world "g1" (ex_state ex_dados)
                 enumerates_elements)).
Defined.

(** The request for bob raises; alice is still checked. *)
Lemma C7_failures_are_isolated_witness :
  ∃ st news,
    verificar_partidas ex_world_falha (ex_state ex_dados_dois) = (Val tt, st) ∧
    map fst (requests st) =
      [] ++ [url_current_game "bob"; url_current_game "alice"] ∧
    replies st = [] ∧
    sends st = [] ++ news ∧
    Forall (send_de_notificacao 42) news.
Proof.
  refine (C7_failures_are_isolated ex_world_falha (ex_state ex_dados_dois) 42 eq_refl _).
  discriminate.
Defined.

(** Every answer is a malformed 200: the counter is 1, nothing is sent
    and the closing reply is left out. *)
Lemma C8_counter_counts_every_200_witness :
  ∃ st reqs news,
    verificar_agora ex_world_malformada (ex_state ex_dados) = (Val tt, st) ∧
    requests st = [] ++ reqs ∧
    map fst reqs = [url_current_game "alice"] ∧
    sends st = [] ++ news ∧
    jogos_encontrados st = length (filter (λ r, is_200 r.2 = true) reqs) ∧
    length news = length (filter (λ r, bem_formada r.2 = true) reqs) ∧
    replies st = [] ++ "Verificando os GMs, um momento..." ::
                   (if (length (filter (λ r, is_200 r.2 = true) reqs) =? 0)%nat
                    then [msg_ninguem] else []) ∧
    (Forall (λ r, is_200 r.2 = true → resposta_malformada r.2 = true) reqs →
       news = [] ∧
       (length (filter (λ r, is_200 r.2 = true) reqs) ≠ 0%nat →
          replies st = [] ++ ["Verificando os GMs, um momento..."])).
Proof.
  refine (C8_counter_counts_every_200 ex_world_malformada (ex_state ex_dados) 42
            eq_refl _).
  discriminate.
Defined.

(** ** The scenarios of the specification, evaluated *)

(** First cycle: the game is notified and marked; second cycle with the
    same answer: nothing more is sent. *)
Example cenario_duas_rodadas :
  let s1 := exec (verificar_partidas ex_world) (ex_state ex_dados) in
  let s2 := exec (verificar_partidas ex_world) s1 in
  partidas_notificadas (dados s1) = {["g1"]} ∧
  (arq_partidas_notificadas <$> arquivo s1) = Some ["g1"] ∧
  length (sends s1) = 1%nat ∧
  sends s2 = sends s1 ∧
  dados s2 = dados s1.
Proof. now vm_compute. Qed.

(** The request for bob raises, alice's game is still notified, and the
    error only reaches the log. *)
Example cenario_falha_isolada :
  let st := exec (verificar_partidas ex_world_falha) (ex_state ex_dados_dois) in
  map fst (requests st) = [url_current_game "bob"; url_current_game "alice"] ∧
  map snd (requests st) = [None; Some (mkResponse 200 (Some ex_partida))] ∧
  sends st = [(42, mensagem_automatica "alice" "bob" "blitz" "Brancas"
                     "https://lichess.org/g1", true)] ∧
  replies st = [] ∧
  log st = [LInfo "Iniciando verificação de partidas...";
            LError "Erro ao verificar bob" HTTPError;
            LInfo "Dados salvos com sucesso!"].
Proof. now vm_compute. Qed.

(** Only malformed 200 answers: no message and no closing reply. *)
Example cenario_malformada :
  let st := exec (verificar_agora ex_world_malformada) (ex_state ex_dados) in
  jogos_encontrados st = 1%nat ∧
  sends st = [] ∧
  replies st = ["Verificando os GMs, um momento..."].
Proof. now vm_compute. Qed.

(** [/removergm carol] with only alice monitored: reported, state kept. *)
Example cenario_remover_ausente :
  let st := exec (remover_gm ex_world ["carol"]) (ex_state ex_dados) in
  dados st = ex_dados ∧ arquivo st = None ∧
  replies st = ["Não encontrei Carol na lista."].
Proof. now vm_compute. Qed.

(** The sub-commands of [/filtroritmo] come before the speeds. *)
Example cenario_filtro_subcomandos :
  ritmos_permitidos
    (dados (exec (filtro_ritmo ex_world ["todos"; "blitz"]) (ex_state ex_dados_bullet)))
  = [] ∧
  ritmos_permitidos
    (dados (exec (filtro_ritmo ex_world ["ver"; "blitz"]) (ex_state ex_dados_bullet)))
  = ["bullet"].
Proof. now vm_compute. Qed.

(** * Further properties of the code *)

(** ** Loading and saving *)

Lemma exec_carregar_dados_novo (w : World) (s : State) :
  arquivo s = None →
  dados (exec (carregar_dados w) s) = dados_iniciais ∧
  arquivo (exec (carregar_dados w) s) = Some (dados_para_salvar w dados_iniciais).
Proof. intros H. unfold exec, carregar_dados. now rewrite H. Qed.

Lemma exec_carregar_dados_arquivo (w : World) (s : State) (a : Arquivo) :
  arquivo s = Some a → arquivo (exec (carregar_dados w) s) = Some a.
Proof. intros H. unfold exec, carregar_dados. now rewrite H. Qed.

(** X1. When the state file does not exist, [carregar_dados] sets the
    default configuration (magnuscarlsen and hikaru monitored, nothing
    notified, no filter, no chat) and writes it to the file at once; the
    file it writes holds an empty list of notified games, and any later
    load of that file gives the defaults again. *)
Theorem X1_load_without_file_creates_defaults (w : World) (s : State) :
  arquivo s = None →
  enumerates (list_of_set w) →
  let st := exec (carregar_dados w) s in
  dados st = mkDados ["magnuscarlsen"; "hikaru"] ∅ [] None ∧
  arquivo st = Some (mkArquivo ["magnuscarlsen"; "hikaru"] [] [] None) ∧
  (∀ w' s', arquivo s' = arquivo st →
     dados (exec (carregar_dados w') s') = mkDados ["magnuscarlsen"; "hikaru"] ∅ [] None ∧
     arquivo (exec (carregar_dados w') s') = arquivo s').
Proof.
  intros Hnone Hf st.
  destruct (exec_carregar_dados_novo w s Hnone) as [Hd Ha]. fold st in Hd, Ha.
  assert (list_of_set w ∅ = []) as Hempty.
  { destruct (Hf ∅) as [_ Hmem]. destruct (list_of_set w ∅) as [|x l]; [reflexivity|].
    exfalso. apply (not_elem_of_empty (C := gset string) x), Hmem. left. }
  assert (arquivo st = Some (mkArquivo ["magnuscarlsen"; "hikaru"] [] [] None)) as Ha'.
  { rewrite Ha. unfold dados_para_salvar, dados_iniciais.
    cbn [gms_a_monitorar partidas_notificadas ritmos_permitidos chat_id].
    now rewrite Hempty. }
  split_and!; [exact Hd | exact Ha' |].
  intros w' s' Hs'. rewrite Ha' in Hs'. split.
  - now rewrite (exec_carregar_dados_existente w' s' _ Hs').
  - rewrite Hs'. now apply exec_carregar_dados_arquivo.
Qed.

(** X2. Loading an existing file replaces [dados] by the file's content
    without writing the file, and repeated entries of the saved list of
    notified games collapse: a game is in the dedup set exactly when it is
    in the list.  Saving right after such a load keeps the players, the
    filter and the chat id of the file and writes a duplicate-free list
    with the same games. *)
Theorem X2_load_then_save_normalises (w : World) (s : State) (a : Arquivo) :
  arquivo s = Some a →
  enumerates (list_of_set w) →
  let s1 := exec (carregar_dados w) s in
  let s2 := exec (salvar_dados w) s1 in
  arquivo s1 = Some a ∧
  gms_a_monitorar (dados s1) = arq_gms_a_monitorar a ∧
  (∀ g, g ∈ partidas_notificadas (dados s1) ↔ g ∈ arq_partidas_notificadas a) ∧
  dados s2 = dados s1 ∧
  ∃ a', arquivo s2 = Some a' ∧
        arq_gms_a_monitorar a' = arq_gms_a_monitorar a ∧
        arq_ritmos_permitidos a' = arq_ritmos_permitidos a ∧
        arq_chat_id a' = arq_chat_id a ∧
        NoDup (arq_partidas_notificadas a') ∧
        (∀ g, g ∈ arq_partidas_notificadas a' ↔ g ∈ arq_partidas_notificadas a).
Proof.
  intros Ha Hf s1 s2.
  assert (dados s1 = dados_carregados a) as Hd
    by now apply exec_carregar_dados_existente.
  split_and!.
  - now apply exec_carregar_dados_arquivo.
  - now rewrite Hd.
  - intros g. rewrite Hd. cbn [dados_carregados partidas_notificadas].
    apply elem_of_list_to_set.
  - reflexivity.
  - unfold s2. rewrite exec_salvar_dados.
    eexists. split; [reflexivity|]. rewrite Hd.
    cbn [dados_para_salvar dados_carregados gms_a_monitorar partidas_notificadas
         ritmos_permitidos chat_id arq_gms_a_monitorar arq_partidas_notificadas
         arq_ritmos_permitidos arq_chat_id].
    destruct (Hf (list_to_set (arq_partidas_notificadas a))) as [Hnd Hmem].
    split_and!; try reflexivity; [exact Hnd|].
    intros g. rewrite Hmem. apply elem_of_list_to_set.
Qed.

(** ** Checks without a registered chat *)

(** X3. While no chat is registered ([chat_id] is null, or 0, which
    Python also takes as false), neither check contacts lichess or sends
    anything, and [dados] and the file stay as they are: the scheduled
    cycle only logs a warning, the manual check only replies, asking for
    [/start]. *)
Theorem X3_checks_without_chat_do_nothing (w : World) (s : State) :
  chat_id (dados s) = None ∨ chat_id (dados s) = Some 0 →
  let agendada := exec (verificar_partidas w) s in
  let manual := exec (verificar_agora w) s in
  (requests agendada = requests s ∧ sends agendada = sends s ∧
   dados agendada = dados s ∧ arquivo agendada = arquivo s ∧
   replies agendada = replies s ∧
   log agendada = log s ++ [LWarning
     "Notificação automática pulada: Chat ID não configurado. Use /start."]) ∧
  (requests manual = requests s ∧ sends manual = sends s ∧
   dados manual = dados s ∧ arquivo manual = arquivo s ∧
   log manual = log s ∧
   replies manual = replies s ++
     ["Verificando os GMs, um momento...";
      "Por favor, use /start primeiro para eu saber quem você é."]).
Proof.
  intros Hc agendada manual.
  assert (truthy_chat (chat_id (dados s)) = false) as Hf
    by (destruct Hc as [-> | ->]; reflexivity).
  unfold agendada, manual, exec.
  rewrite (verificar_partidas_sem_chat w s Hf), (verificar_agora_sem_chat w s Hf).
  now split_and!.
Qed.

Lemma X1_load_without_file_creates_defaults_witness :
  dados (exec (carregar_dados ex_world) (ex_state ex_dados)) =
    mkDados ["magnuscarlsen"; "hikaru"] ∅ [] None.
Proof.
  exact (proj1 (X1_load_without_file_creates_defaults ex_world (ex_state ex_dados)
                  eq_refl enumerates_elements)).
Defined.

Lemma X2_load_then_save_normalises_witness :
  arquivo (exec (carregar_dados ex_world)
             (with_arquivo (Some (mkArquivo ["alice"] ["g1"; "g1"; "g2"] [] (Some 42)))
                (ex_state ex_dados)))
  = Some (mkArquivo ["alice"] ["g1"; "g1"; "g2"] [] (Some 42)).
Proof.
  exact (proj1 (X2_load_then_save_normalises ex_world
                  (with_arquivo (Some (mkArquivo ["alice"] ["g1"; "g1"; "g2"] [] (Some 42)))
                     (ex_state ex_dados))
                  _ eq_refl enumerates_elements)).
Defined.

Lemma X3_checks_without_chat_do_nothing_witness :
  requests (exec (verificar_partidas ex_world) (ex_state ex_dados_sem_chat)) = [] ∧
  sends (exec (verificar_agora ex_world) (ex_state ex_dados_sem_chat)) = [].
Proof.
  pose proof (X3_checks_without_chat_do_nothing ex_world (ex_state ex_dados_sem_chat)
                (or_introl eq_refl)) as H.
  cbv zeta in H. split; apply H.
Defined.

(** ** The monitored list *)

Lemma list_remove_absent (g : string) (l : list string) :
  g ∉ l → list_remove g l = l.
Proof.
  induction l as [|y l IH]; intros Hnin; [reflexivity|].
  apply not_elem_of_cons in Hnin as [Hne Hnin]. cbn [list_remove].
  destruct (decide (y = g)) as [->|_]; [done|]. now rewrite IH.
Qed.

Lemma list_remove_perm (g : string) (l : list string) :
  g ∈ l → l ≡ₚ g :: list_remove g l.
Proof.
  induction l as [|y l IH]; intros Hin; [now apply elem_of_nil in Hin|].
  cbn [list_remove]. destruct (decide (y = g)) as [->|Hne]; [reflexivity|].
  apply elem_of_cons in Hin as [->|Hin]; [done|].
  rewrite (IH Hin) at 1. apply Permutation_swap.
Qed.

Lemma list_remove_split (g : string) (l : list string) :
  g ∈ l → ∃ l1 l2, l = l1 ++ g :: l2 ∧ (g ∉ l1) ∧ list_remove g l = l1 ++ l2.
Proof.
  induction l as [|y l IH]; intros Hin; [now apply elem_of_nil in Hin|].
  cbn [list_remove]. destruct (decide (y = g)) as [->|Hne].
  - exists [], l. split_and!; [reflexivity | apply not_elem_of_nil | reflexivity].
  - apply elem_of_cons in Hin as [->|Hin]; [done|].
    destruct (IH Hin) as (l1 & l2 & -> & Hnin & ->).
    exists (y :: l1), l2. split_and!; [reflexivity | | reflexivity].
    apply not_elem_of_cons. split; [congruence | exact Hnin].
Qed.

Lemma list_remove_subseteq (g : string) (l : list string) :
  list_remove g l ⊆ l.
Proof.
  induction l as [|y l IH]; [done|]. cbn [list_remove].
  destruct (decide (y = g)); [apply list_subseteq_cons, reflexivity|].
  intros x [->|Hx]%elem_of_cons; [left|right; now apply IH].
Qed.

Lemma list_remove_NoDup (g : string) (l : list string) :
  NoDup l → NoDup (list_remove g l) ∧ (g ∉ list_remove g l) ∧
            list_remove g l = filter (λ x, x ≠ g) l.
Proof.
  induction 1 as [|y l Hy Hnd IH]; [repeat split; [constructor|apply not_elem_of_nil]|].
  cbn [list_remove]. destruct (decide (y = g)) as [->|Hne].
  - rewrite filter_cons_False by (intros H; now apply H).
    split_and!; [exact Hnd | exact Hy |].
    clear IH Hnd. induction l as [|z l IHl]; [reflexivity|].
    apply not_elem_of_cons in Hy as [Hz Hy].
    rewrite filter_cons_True by congruence. f_equal. now apply IHl.
  - destruct IH as (IH1 & IH2 & IH3).
    rewrite filter_cons_True by assumption. split_and!.
    + constructor; [|exact IH1]. intros Hin. apply Hy. now apply list_remove_subseteq in Hin.
    + intros [E|Hin]%elem_of_cons; [congruence|contradiction].
    + now rewrite IH3.
Qed.

Lemma lista_normalizada_snoc (g : string) (l : list string) :
  lista_normalizada l → g ∉ l → str_lower g = g → lista_normalizada (l ++ [g]).
Proof.
  intros [Hnd Hlow] Hnin Hg. split.
  - apply NoDup_app. split_and!; [exact Hnd | | apply NoDup_singleton].
    intros x Hx ->%list_elem_of_singleton. contradiction.
  - apply Forall_app. split; [exact Hlow|]. now constructor.
Qed.

Lemma lista_normalizada_remove (g : string) (l : list string) :
  lista_normalizada l → lista_normalizada (list_remove g l).
Proof.
  intros [Hnd Hlow]. split; [now apply list_remove_NoDup|].
  rewrite Forall_forall in Hlow |- *. intros x Hx.
  now apply Hlow, (list_remove_subseteq g).
Qed.

Lemma exec_adicionar_gm (w : World) (arg0 : string) (rest : list string) (s : State) :
  let g := str_lower arg0 in
  let d' := mkDados (gms_a_monitorar (dados s) ++ [g]) (partidas_notificadas (dados s))
                    (ritmos_permitidos (dados s)) (chat_id (dados s)) in
  adicionar_gm w (arg0 :: rest) s =
    if str_in g (gms_a_monitorar (dados s))
    then (Val tt, with_replies (replies s ++ [str_capitalize g +:+ " já está na lista."]) s)
    else (Val tt,
          with_replies (replies s ++ [str_capitalize g +:+ " foi adicionado!"])
            (apos_log (LInfo "Dados salvos com sucesso!")
               (with_arquivo (Some (dados_para_salvar w d')) (with_dados d' s)))).
Proof.
  cbv zeta. unfold adicionar_gm, bind, get_dados.
  now destruct (str_in _ _).
Qed.

Lemma exec_remover_gm (w : World) (arg0 : string) (rest : list string) (s : State) :
  let g := str_lower arg0 in
  let d' := mkDados (list_remove g (gms_a_monitorar (dados s)))
                    (partidas_notificadas (dados s))
                    (ritmos_permitidos (dados s)) (chat_id (dados s)) in
  remover_gm w (arg0 :: rest) s =
    if str_in g (gms_a_monitorar (dados s))
    then (Val tt,
          with_replies (replies s ++ [str_capitalize g +:+ " foi removido."])
            (apos_log (LInfo "Dados salvos com sucesso!")
               (with_arquivo (Some (dados_para_salvar w d')) (with_dados d' s))))
    else (Val tt, with_replies
            (replies s ++ ["Não encontrei " +:+ str_capitalize g +:+ " na lista."]) s).
Proof.
  cbv zeta. unfold remover_gm, bind, get_dados.
  now destruct (str_in _ _).
Qed.

(** X4. [/adicionargm name] lower-cases the name; a name that is already
    monitored changes nothing and writes nothing, a new name is appended
    at the end of the list and the state is saved.  Either way the name
    is monitored afterwards, a second identical command changes nothing,
    the other fields of [dados] are kept, nothing is sent, and a list of
    distinct lower-case names stays one.  Without an argument only the
    usage text is replied. *)
Theorem X4_add_player (w : World) (arg0 : string) (rest : list string) (s : State) :
  let g := str_lower arg0 in
  let st := exec (adicionar_gm w (arg0 :: rest)) s in
  (g ∈ gms_a_monitorar (dados st)) ∧
  (g ∈ gms_a_monitorar (dados s) → dados st = dados s ∧ arquivo st = arquivo s) ∧
  (g ∉ gms_a_monitorar (dados s) →
     gms_a_monitorar (dados st) = gms_a_monitorar (dados s) ++ [g] ∧
     arquivo st = Some (dados_para_salvar w (dados st))) ∧
  dados (exec (adicionar_gm w (arg0 :: rest)) st) = dados st ∧
  (partidas_notificadas (dados st) = partidas_notificadas (dados s) ∧
   ritmos_permitidos (dados st) = ritmos_permitidos (dados s) ∧
   chat_id (dados st) = chat_id (dados s) ∧ sends st = sends s) ∧
  (lista_normalizada (gms_a_monitorar (dados s)) →
   lista_normalizada (gms_a_monitorar (dados st))) ∧
  (dados (exec (adicionar_gm w []) s) = dados s ∧
   arquivo (exec (adicionar_gm w []) s) = arquivo s ∧
   replies (exec (adicionar_gm w []) s) = replies s ++ ["Uso: /adicionargm <username>"]).
Proof.
  intros g st.
  pose proof (exec_adicionar_gm w arg0 rest s) as E. cbv zeta in E. fold g in E.
  assert (g ∈ gms_a_monitorar (dados st)) as Hin.
  { unfold st, exec. rewrite E. destruct (str_in g _) eqn:Hg.
    - now apply str_in_true in Hg.
    - cbn. apply elem_of_app. right. left. }
  split_and!; try reflexivity.
  - exact Hin.
  - intros Hg. apply str_in_true in Hg. unfold st, exec. rewrite E, Hg. now split.
  - intros Hg. apply str_in_false in Hg. unfold st, exec. rewrite E, Hg. now split.
  - pose proof (exec_adicionar_gm w arg0 rest st) as E'. cbv zeta in E'. fold g in E'.
    apply str_in_true in Hin. unfold exec at 1. now rewrite E', Hin.
  - unfold st, exec. rewrite E. now destruct (str_in g _).
  - unfold st, exec. rewrite E. now destruct (str_in g _).
  - unfold st, exec. rewrite E. now destruct (str_in g _).
  - unfold st, exec. rewrite E. now destruct (str_in g _).
  - intros Hnorm. unfold st, exec. rewrite E. destruct (str_in g _) eqn:Hg; [exact Hnorm|].
    apply str_in_false in Hg. cbn.
    apply lista_normalizada_snoc; [exact Hnorm | exact Hg | apply str_lower_idemp].
Qed.

(** X5. [/removergm name] lower-cases the name.  A name that is not
    monitored changes nothing, writes nothing and is reported as not
    found.  Otherwise exactly one occurrence, the first, leaves the list
    and the state is saved: the old list is a permutation of the name and
    the new list.  When the names of the list are distinct the name is no
    longer monitored afterwards and the others keep their order. *)
Theorem X5_remove_player (w : World) (arg0 : string) (rest : list string) (s : State) :
  let g := str_lower arg0 in
  let st := exec (remover_gm w (arg0 :: rest)) s in
  (g ∉ gms_a_monitorar (dados s) →
     dados st = dados s ∧ arquivo st = arquivo s ∧
     replies st = replies s ++ ["Não encontrei " +:+ str_capitalize g +:+ " na lista."]) ∧
  (g ∈ gms_a_monitorar (dados s) →
     (∃ l1 l2, gms_a_monitorar (dados s) = l1 ++ g :: l2 ∧ (g ∉ l1) ∧
               gms_a_monitorar (dados st) = l1 ++ l2) ∧
     gms_a_monitorar (dados s) ≡ₚ g :: gms_a_monitorar (dados st) ∧
     arquivo st = Some (dados_para_salvar w (dados st)) ∧
     (NoDup (gms_a_monitorar (dados s)) →
        (g ∉ gms_a_monitorar (dados st)) ∧
        gms_a_monitorar (dados st) = filter (λ x, x ≠ g) (gms_a_monitorar (dados s)))) ∧
  (partidas_notificadas (dados st) = partidas_notificadas (dados s) ∧
   ritmos_permitidos (dados st) = ritmos_permitidos (dados s) ∧
   chat_id (dados st) = chat_id (dados s) ∧ sends st = sends s) ∧
  (lista_normalizada (gms_a_monitorar (dados s)) →
   lista_normalizada (gms_a_monitorar (dados st))).
Proof.
  intros g st.
  pose proof (exec_remover_gm w arg0 rest s) as E. cbv zeta in E. fold g in E.
  split_and!.
  - intros Hg. apply str_in_false in Hg. unfold st, exec. rewrite E, Hg. now split_and!.
  - intros Hg. pose proof Hg as Hg'. apply str_in_true in Hg'.
    unfold st, exec. rewrite E, Hg'. cbn. split_and!.
    + now apply list_remove_split.
    + now apply list_remove_perm.
    + reflexivity.
    + intros Hnd. split; now apply list_remove_NoDup.
  - unfold st, exec. rewrite E. now destruct (str_in g _).
  - unfold st, exec. rewrite E. now destruct (str_in g _).
  - unfold st, exec. rewrite E. now destruct (str_in g _).
  - unfold st, exec. rewrite E. now destruct (str_in g _).
  - intros Hnorm. unfold st, exec. rewrite E. destruct (str_in g _); [|exact Hnorm].
    cbn. now apply lista_normalizada_remove.
Qed.

Lemma list_remove_snoc (g : string) (l : list string) :
  g ∉ l → list_remove g (l ++ [g]) = l.
Proof.
  induction l as [|y l IH]; intros Hnin.
  - cbn. now rewrite decide_True.
  - apply not_elem_of_cons in Hnin as [Hne Hnin]. cbn.
    rewrite decide_False by congruence. now rewrite IH.
Qed.

(** X6. Adding a player that is not monitored and then removing it, under
    any spelling of the same name with other letter case, gives back the
    [dados] from before, and the file written last holds them. *)
Theorem X6_add_then_remove (w : World) (a1 a2 : string) (r1 r2 : list string) (s : State) :
  str_lower a1 = str_lower a2 →
  str_lower a1 ∉ gms_a_monitorar (dados s) →
  let st := exec (remover_gm w (a2 :: r2)) (exec (adicionar_gm w (a1 :: r1)) s) in
  dados st = dados s ∧
  arquivo st = Some (dados_para_salvar w (dados s)).
Proof.
  intros Hcase Hnin st.
  pose proof (exec_adicionar_gm w a1 r1 s) as E1. cbv zeta in E1.
  apply str_in_false in Hnin as Hnin'. rewrite Hnin' in E1.
  unfold st, exec. rewrite E1. cbn [snd].
  match goal with |- context [remover_gm w (a2 :: r2) ?x] => set (s1 := x) end.
  pose proof (exec_remover_gm w a2 r2 s1) as E2. cbv zeta in E2.
  rewrite <- Hcase in E2.
  assert (str_in (str_lower a1) (gms_a_monitorar (dados s1)) = true) as Hin.
  { apply str_in_true. cbn. apply elem_of_app. right. left. }
  rewrite Hin in E2. rewrite E2. subst s1.
  cbn. rewrite list_remove_snoc by assumption.
  destruct (dados s); now split.
Qed.

Lemma X6_add_then_remove_witness :
  dados (exec (remover_gm ex_world ["CAROL"])
           (exec (adicionar_gm ex_world ["Carol"]) (ex_state ex_dados)))
  = ex_dados.
Proof.
  exact (proj1 (X6_add_then_remove ex_world "Carol" "CAROL" [] [] (ex_state ex_dados)
                  eq_refl (proj1 (str_in_false "carol" ["alice"]) eq_refl))).
Defined.

(** ** Listing the players and the sub-commands of the filter *)

Lemma str_join_cons (sep x : string) (l : list string) :
  l ≠ [] → str_join sep (x :: l) = x +:+ sep +:+ str_join sep l.
Proof. now destruct l. Qed.

Lemma str_join_occurs (sep x : string) (l : list string) :
  x ∈ l → occurs_in x (str_join sep l).
Proof.
  induction l as [|y l IH]; intros Hin; [now apply elem_of_nil in Hin|].
  destruct l as [|z l].
  - apply list_elem_of_singleton in Hin as ->. apply occurs_in_refl.
  - rewrite str_join_cons by done.
    apply elem_of_cons in Hin as [->|Hin]; [apply occurs_in_here|].
    now apply occurs_in_app_r, occurs_in_app_r, IH.
Qed.

(** X7. [/listar_gms] never changes [dados] or the file and sends and
    requests nothing.  With an empty list it replies that the list is
    empty; otherwise its single reply shows every monitored player as an
    item [- `name`]. *)
Theorem X7_list_players (s : State) :
  let st := exec listar_gms s in
  (dados st = dados s ∧ arquivo st = arquivo s ∧
   sends st = sends s ∧ requests st = requests s) ∧
  (gms_a_monitorar (dados s) = [] →
     replies st = replies s ++ ["A lista de monitoramento está vazia."]) ∧
  (gms_a_monitorar (dados s) ≠ [] →
     ∃ r, replies st = replies s ++ [r] ∧
          ∀ gm, gm ∈ gms_a_monitorar (dados s) → occurs_in ("- `" +:+ gm +:+ "`") r).
Proof.
  intros st. unfold st, exec, listar_gms, bind, get_dados. split_and!.
  - now destruct (truthy_list _).
  - now destruct (truthy_list _).
  - now destruct (truthy_list _).
  - now destruct (truthy_list _).
  - now intros ->.
  - intros Hne. apply truthy_list_true in Hne. rewrite Hne.
    eexists. split; [reflexivity|]. intros gm Hgm.
    apply occurs_in_app_r, occurs_in_app_r, str_join_occurs.
    apply (list_elem_of_fmap_2 (λ g, "- `" +:+ g +:+ "`")) in Hgm. exact Hgm.
Qed.

Lemma com_ritmos_id (d : Dados) : com_ritmos (ritmos_permitidos d) d = d.
Proof. now destruct d. Qed.

Lemma filtro_valido_novos (args : list string) : filtro_valido (novos_ritmos_de args).
Proof.
  unfold filtro_valido. rewrite novos_ritmos_de_filter. apply Forall_forall.
  intros r Hr. now apply list_elem_of_filter in Hr as [Hr _].
Qed.

Lemma exec_filtro_ritmo_todos (w : World) (arg0 : string) (rest : list string) (s : State) :
  str_lower arg0 = "todos" →
  filtro_ritmo w (arg0 :: rest) s =
    (Val tt,
     with_replies (replies s ++ ["Filtro de ritmo removido."])
       (apos_log (LInfo "Dados salvos com sucesso!")
          (with_arquivo (Some (dados_para_salvar w (com_ritmos [] (dados s))))
             (with_dados (com_ritmos [] (dados s)) s)))).
Proof. intros H. unfold filtro_ritmo. now rewrite H. Qed.

Lemma exec_filtro_ritmo_ver (w : World) (arg0 : string) (rest : list string) (s : State) :
  str_lower arg0 = "ver" →
  filtro_ritmo w (arg0 :: rest) s =
    (Val tt,
     with_replies
       (replies s ++
          [if truthy_list (ritmos_permitidos (dados s))
           then "Filtro atual: " +:+ str_join ", " (ritmos_permitidos (dados s))
           else "Nenhum filtro de ritmo ativo."]) s).
Proof.
  intros H. unfold filtro_ritmo, bind, get_dados. rewrite H.
  change (String.eqb "ver" "ver") with true. cbv beta iota.
  now destruct (truthy_list _).
Qed.

(** X8. The sub-commands of [/filtroritmo] are recognised in any letter
    case and before any speed that follows them.  [todos] empties the
    filter and saves, after which the speed test of the scheduled cycle
    accepts every speed; [ver] only replies, with the filter or with the
    notice that none is active, and changes nothing.  Whatever the
    arguments, the command only touches the filter, sends nothing, and a
    filter of valid speeds stays one. *)
Theorem X8_filter_subcommands
    (w : World) (args : list string) (s : State) :
  let st := exec (filtro_ritmo w args) s in
  (∀ arg0 rest, args = arg0 :: rest → str_lower arg0 = "todos" →
     ritmos_permitidos (dados st) = [] ∧
     arquivo st = Some (dados_para_salvar w (dados st)) ∧
     ∀ ritmo, ritmo_permitido (ritmos_permitidos (dados st)) ritmo = true) ∧
  (∀ arg0 rest, args = arg0 :: rest → str_lower arg0 = "ver" →
     dados st = dados s ∧ arquivo st = arquivo s ∧
     replies st = replies s ++
       [if truthy_list (ritmos_permitidos (dados s))
        then "Filtro atual: " +:+ str_join ", " (ritmos_permitidos (dados s))
        else "Nenhum filtro de ritmo ativo."]) ∧
  (args = [] → dados st = dados s ∧ arquivo st = arquivo s) ∧
  (∃ r, dados st = com_ritmos r (dados s)) ∧
  sends st = sends s ∧
  (filtro_valido (ritmos_permitidos (dados s)) →
   filtro_valido (ritmos_permitidos (dados st))).
Proof.
  intros st. split_and!.
  - intros arg0 rest -> H. unfold st, exec.
    rewrite (exec_filtro_ritmo_todos w arg0 rest s H).
    split_and!; [reflexivity | reflexivity | now intros].
  - intros arg0 rest -> H. unfold st, exec.
    rewrite (exec_filtro_ritmo_ver w arg0 rest s H). now split_and!.
  - now intros ->.
  - unfold st, exec, filtro_ritmo, definir_filtro_ritmo, bind, get_dados.
    destruct args as [|arg0 rest];
      [exists (ritmos_permitidos (dados s)); now rewrite com_ritmos_id|].
    destruct (String.eqb _ "ver").
    { exists (ritmos_permitidos (dados s)). rewrite com_ritmos_id.
      now destruct (truthy_list _). }
    destruct (String.eqb _ "todos"); [now exists []|].
    destruct (truthy_list _); [now eexists|].
    exists (ritmos_permitidos (dados s)). now rewrite com_ritmos_id.
  - unfold st, exec, filtro_ritmo, definir_filtro_ritmo, bind, get_dados.
    destruct args as [|arg0 rest]; [reflexivity|].
    destruct (String.eqb _ "ver"); [now destruct (truthy_list _)|].
    destruct (String.eqb _ "todos"); [reflexivity|].
    now destruct (truthy_list _).
  - intros Hval.
    unfold st, exec, filtro_ritmo, definir_filtro_ritmo, bind, get_dados.
    destruct args as [|arg0 rest]; [exact Hval|].
    destruct (String.eqb _ "ver"); [now destruct (truthy_list _)|].
    destruct (String.eqb _ "todos"); [constructor|].
    destruct (truthy_list _); [apply filtro_valido_novos | exact Hval].
Qed.

(** ** What the handlers do to [dados] and to the file *)

(** A scheduled cycle either leaves [dados] and the file alone or grows
    the dedup set and leaves the file saved. *)
Lemma for_in_partidas_arquivo (w : World) (chat : Z) (gms : list string) (s : State) :
  ∃ st,
    for_in gms (verificar_partidas_iter w chat) s = (Val tt, st) ∧
    ((dados st = dados s ∧ arquivo st = arquivo s) ∨
     ((∃ novas, dados st = com_partidas (novas ∪ partidas_notificadas (dados s)) (dados s)) ∧
      arquivo st = Some (dados_para_salvar w (dados st)))).
Proof.
  revert s. induction gms as [|gm gms IH]; intros s.
  - exists s. split; [reflexivity|]. now left.
  - destruct (verificar_partidas_iter_spec w chat gm s)
      as (r & s1 & E & Hr & _ & _ & _ & Hout).
    destruct (IH s1) as (st & Efor & Hst).
    exists st. split.
    { cbn [for_in]. rewrite E. now destruct Hr as [-> | ->]. }
    destruct Hout as [Hd Ha _ | p i o wh Hd Ha _ | p i o wh _ Hd Ha _].
    + now rewrite <- Hd, <- Ha.
    + now rewrite <- Hd, <- Ha.
    + right. destruct Hst as [[Hd' Ha'] | [[novas Hd'] Ha']].
      * split; [|congruence]. exists {[i]}. congruence.
      * split; [|exact Ha']. exists (novas ∪ {[i]}).
        rewrite Hd', Hd. unfold com_partidas. cbn. f_equal.
        now rewrite (assoc_L (∪)).
Qed.

Lemma exec_verificar_partidas_edicao (w : World) (s : State) :
  let st := exec (verificar_partidas w) s in
  (dados st = dados s ∧ arquivo st = arquivo s) ∨
  (edicao (dados s) (dados st) ∧ arquivo st = Some (dados_para_salvar w (dados st))).
Proof.
  intros st. unfold st, exec.
  destruct (truthy_chat_cases (chat_id (dados s))) as [Hf | (chat & Hc & Hne)].
  - rewrite verificar_partidas_sem_chat by assumption. now left.
  - rewrite (verificar_partidas_com_chat w s chat Hc Hne).
    destruct (for_in_partidas_arquivo w chat (gms_a_monitorar (dados s))
                (apos_log (LInfo "Iniciando verificação de partidas...") s))
      as (fim & E & Hfim).
    rewrite E. cbn [snd]. destruct Hfim as [H | [[novas Hd] Ha]]; [now left|].
    right. split; [|exact Ha]. now apply (EdPartidas _ _ novas).
Qed.

(** Every handler ends normally; it either leaves [dados] and the file as
    they are, or edits [dados] in one of five ways and saves. *)
Lemma handle_edicao (w : World) (u : Update) (s : State) :
  ∃ st,
    handle w u s = (Val tt, st) ∧
    ((dados st = dados s ∧ arquivo st = arquivo s) ∨
     (edicao (dados s) (dados st) ∧ arquivo st = Some (dados_para_salvar w (dados st)))).
Proof.
  destruct (handle_spec w u s) as (st & _ & E & _).
  exists st. split; [exact E|].
  assert (st = exec (handle w u) s) as -> by (unfold exec; now rewrite E).
  clear E. destruct u as [c| | | |args|args|args|]; cbn [handle].
  - right. split; [|reflexivity]. now apply (EdChat _ _ c).
  - now left.
  - left. apply exec_verificar_agora_dados.
  - left. unfold exec, listar_gms, bind, get_dados. now destruct (truthy_list _).
  - destruct args as [|arg0 rest]; [now left|].
    pose proof (exec_adicionar_gm w arg0 rest s) as E. cbv zeta in E.
    unfold exec. rewrite E. destruct (str_in _ _) eqn:Hin; [now left|].
    right. split; [|reflexivity]. apply str_in_false in Hin.
    apply (EdAdicionar _ _ (str_lower arg0)); [apply str_lower_idemp | exact Hin | reflexivity].
  - destruct args as [|arg0 rest]; [now left|].
    pose proof (exec_remover_gm w arg0 rest s) as E. cbv zeta in E.
    unfold exec. rewrite E. destruct (str_in _ _) eqn:Hin; [|now left].
    right. split; [|reflexivity]. apply str_in_true in Hin.
    now apply (EdRemover _ _ (str_lower arg0)).
  - destruct args as [|arg0 rest]; [now left|].
    unfold exec, filtro_ritmo, definir_filtro_ritmo, bind, get_dados.
    destruct (String.eqb _ "ver"); [left; now destruct (truthy_list _)|].
    destruct (String.eqb _ "todos").
    { right. split; [|reflexivity]. apply (EdFiltro _ _ []); [constructor|reflexivity]. }
    destruct (truthy_list _); [|now left].
    right. split; [|reflexivity].
    apply (EdFiltro _ _ (novos_ritmos_de (arg0 :: rest)));
      [apply filtro_valido_novos | reflexivity].
  - apply exec_verificar_partidas_edicao.
Qed.

Lemma edicao_invariantes (d d' : Dados) :
  edicao d d' →
  (lista_normalizada (gms_a_monitorar d) → lista_normalizada (gms_a_monitorar d')) ∧
  (filtro_valido (ritmos_permitidos d) → filtro_valido (ritmos_permitidos d')) ∧
  partidas_notificadas d ⊆ partidas_notificadas d'.
Proof.
  intros [c -> | g Hg Hnin -> | g Hin -> | r Hr -> | novas ->]; cbn; split_and!; auto.
  - intros H. now apply lista_normalizada_snoc.
  - intros H. now apply lista_normalizada_remove.
  - intros x Hx. apply elem_of_union. now right.
Qed.

Lemma for_in_handle_cons (w : World) (u : Update) (updates : list Update) (s : State) :
  for_in (u :: updates) (handle w) s = for_in updates (handle w) (exec (handle w u) s).
Proof.
  destruct (handle_edicao w u s) as (st & E & _).
  cbn [for_in]. unfold exec. now rewrite E.
Qed.

(** An invariant of [dados] and the file that every handler keeps holds
    after any sequence of updates. *)
Lemma for_in_handle_invariante (w : World) (P : State → Prop) :
  (∀ u s, P s → P (exec (handle w u) s)) →
  ∀ updates s, P s →
    ∃ st, for_in updates (handle w) s = (Val tt, st) ∧ P st.
Proof.
  intros Hstep updates. induction updates as [|u updates IH]; intros s HP.
  - now exists s.
  - rewrite for_in_handle_cons. apply IH, Hstep, HP.
Qed.

Lemma exec_handle_edicao (w : World) (u : Update) (s : State) :
  let st := exec (handle w u) s in
  (dados st = dados s ∧ arquivo st = arquivo s) ∨
  (edicao (dados s) (dados st) ∧ arquivo st = Some (dados_para_salvar w (dados st))).
Proof.
  destruct (handle_edicao w u s) as (st & E & H). unfold exec. now rewrite E.
Qed.

Lemma exec_eq {A} (m : M A) (s st : State) (r : res A) :
  m s = (r, st) → exec m s = st.
Proof. intros E. unfold exec. now rewrite E. Qed.

Lemma exec_run_telegram_bot (w : World) (updates : list Update) (s : State) :
  exec (run_telegram_bot w updates) s =
    exec (for_in updates (handle w)) (exec (carregar_dados w) s).
Proof.
  unfold exec, run_telegram_bot, bind.
  assert (∃ s1, carregar_dados w s = (Val tt, s1)) as [s1 E].
  { unfold carregar_dados. destruct (arquivo s); eexists; reflexivity. }
  now rewrite E.
Qed.

(** X9. The bot keeps the monitored list a list of distinct lower-case
    names and the speed filter a list of valid speeds: if the state file
    is absent, or holds such a list and such a filter, then after
    [run_telegram_bot] has loaded the state and handled any sequence of
    commands and timer firings both still hold. *)
Theorem X9_list_and_filter_stay_normalised
    (w : World) (updates : list Update) (s : State) :
  match arquivo s with
  | None => True
  | Some a => lista_normalizada (arq_gms_a_monitorar a) ∧
              filtro_valido (arq_ritmos_permitidos a)
  end →
  let st := exec (run_telegram_bot w updates) s in
  lista_normalizada (gms_a_monitorar (dados st)) ∧
  filtro_valido (ritmos_permitidos (dados st)).
Proof.
  intros Harq st. unfold st. rewrite exec_run_telegram_bot.
  set (P := λ x : State, lista_normalizada (gms_a_monitorar (dados x)) ∧
                         filtro_valido (ritmos_permitidos (dados x))).
  assert (P (exec (carregar_dados w) s)) as HP.
  { unfold P. destruct (arquivo s) as [a|] eqn:Ha.
    - now rewrite (exec_carregar_dados_existente w s a Ha).
    - destruct (exec_carregar_dados_novo w s Ha) as [-> _]. cbn. split; [split|].
      + apply NoDup_cons. split; [|apply NoDup_singleton].
        intros H%list_elem_of_singleton. discriminate.
      + repeat constructor.
      + constructor. }
  destruct (for_in_handle_invariante w P) with (updates := updates)
    (s := exec (carregar_dados w) s) as (fim & E & Hfim); [|exact HP|].
  - intros u x [Hl Hf]. unfold P.
    destruct (exec_handle_edicao w u x) as [[-> _] | [Hed _]]; [now split|].
    apply edicao_invariantes in Hed as (H1 & H2 & _). auto.
  - now rewrite (exec_eq _ _ _ _ E).
Qed.


(** X11. After start-up and after every handled update the state file is
    up to date: loading it, for instance after a restart, gives exactly
    the [dados] the bot holds in memory. *)
Theorem X11_file_follows_memory (w : World) (updates : list Update) (s : State) :
  enumerates (list_of_set w) →
  let st := exec (run_telegram_bot w updates) s in
  arquivo_em_dia st ∧
  ∀ w' s', arquivo s' = arquivo st →
           dados (exec (carregar_dados w') s') = dados st.
Proof.
  intros Hf st.
  assert (arquivo_em_dia st) as Hdia.
  { unfold st. rewrite exec_run_telegram_bot.
    assert (arquivo_em_dia (exec (carregar_dados w) s)) as H0.
    { unfold arquivo_em_dia. destruct (arquivo s) as [a|] eqn:Ha.
      - rewrite (exec_carregar_dados_arquivo w s a Ha),
                (exec_carregar_dados_existente w s a Ha). reflexivity.
      - destruct (exec_carregar_dados_novo w s Ha) as [-> ->]. cbn [fmap option_fmap option_map].
        now rewrite dados_carregados_para_salvar. }
    destruct (for_in_handle_invariante w arquivo_em_dia) with (updates := updates)
      (s := exec (carregar_dados w) s) as (fim & E & Hfim); [|exact H0|].
    - intros u x Hx. unfold arquivo_em_dia.
      destruct (exec_handle_edicao w u x) as [[-> ->] | [_ ->]]; [exact Hx|].
      cbn [fmap option_fmap option_map]. now rewrite dados_carregados_para_salvar.
    - now rewrite (exec_eq _ _ _ _ E). }
  split; [exact Hdia|].
  intros w' s' Hs'. unfold arquivo_em_dia in Hdia.
  destruct (arquivo st) as [a|] eqn:Ha; [|discriminate].
  rewrite (exec_carregar_dados_existente w' s' a Hs'). now injection Hdia.
Qed.

Lemma X9_list_and_filter_stay_normalised_witness :
  lista_normalizada
    (gms_a_monitorar (dados (exec (run_telegram_bot ex_world
       [CmdAdicionarGm ["Hikaru"]; CmdAdicionarGm ["Bob"]; CmdFiltroRitmo ["Blitz"; "x"]])
       (ex_state ex_dados)))) ∧
  filtro_valido
    (ritmos_permitidos (dados (exec (run_telegram_bot ex_world
       [CmdAdicionarGm ["Hikaru"]; CmdAdicionarGm ["Bob"]; CmdFiltroRitmo ["Blitz"; "x"]])
       (ex_state ex_dados)))).
Proof.
  exact (X9_list_and_filter_stay_normalised ex_world
           [CmdAdicionarGm ["Hikaru"]; CmdAdicionarGm ["Bob"]; CmdFiltroRitmo ["Blitz"; "x"]]
           (ex_state ex_dados) I).
Defined.

Lemma X11_file_follows_memory_witness :
  arquivo_em_dia (exec (run_telegram_bot ex_world
                          [CmdStart 42; CmdAdicionarGm ["alice"]; JobVerificarPartidas])
                       (ex_state ex_dados)).
Proof.
  exact (proj1 (X11_file_follows_memory ex_world
                  [CmdStart 42; CmdAdicionarGm ["alice"]; JobVerificarPartidas]
                  (ex_state ex_dados) enumerates_elements)).
Defined.

(** ** Failures and odd answers in one iteration *)

(** X12. A notification whose send raised is not recorded: [dados] is
    unchanged, the game is still absent from the dedup set and the error
    is logged.  So when a later iteration for the same player gets the
    same game document, the same notification is sent again, and the game
    is marked once that send is delivered. *)
Theorem X12_failed_send_is_retried
    (w : World) (chat : Z) (gm : string) (s : State) (resp : Response) (p : Partida)
    (id_partida : string) (opponent : option string) (white : string) :
  client_get w (clock s) (url_current_game gm) = Some resp →
  status_code resp = 200 → json resp = Some p →
  pt_id p = Some id_partida → id_partida ≠ "" →
  pt_opponent p = Some opponent → pt_white_name p = Some white →
  ritmo_permitido (ritmos_permitidos (dados s)) (str_lower (default "" (pt_speed p))) = true →
  id_partida ∉ partidas_notificadas (dados s) →
  let mensagem := mensagem_de gm p id_partida opponent white in
  bot_send_message w (S (clock s)) chat mensagem = false →
  let st := exec (verificar_partidas_iter w chat gm) s in
  dados st = dados s ∧ arquivo st = arquivo s ∧
  sends st = sends s ++ [(chat, mensagem, false)] ∧
  log st = log s ++ [LError ("Erro ao verificar " +:+ gm) TelegramError] ∧
  ∀ resp',
    client_get w (clock st) (url_current_game gm) = Some resp' →
    status_code resp' = 200 → json resp' = Some p →
    let st2 := exec (verificar_partidas_iter w chat gm) st in
    let ok := bot_send_message w (S (clock st)) chat mensagem in
    sends st2 = sends st ++ [(chat, mensagem, ok)] ∧
    (ok = true → id_partida ∈ partidas_notificadas (dados st2)).
Proof.
  intros Hget Hs Hj Hid Hne Hopp Hw Hperm Hnin mensagem Hsend st.
  assert (st = apos_log (LError ("Erro ao verificar " +:+ gm) TelegramError)
                 (apos_send chat mensagem false (apos_get w gm s))) as Hst.
  { unfold st, exec.
    now rewrite (iter_send_error w chat gm s resp p id_partida opponent
                   Hget Hs Hj Hid Hne Hopp Hperm Hnin white Hw Hsend). }
  split_and!; try (rewrite Hst; reflexivity).
  intros resp' Hget' Hs' Hj' st2 ok.
  assert (dados st = dados s) as Hd by (rewrite Hst; reflexivity).
  assert (ritmo_permitido (ritmos_permitidos (dados st))
            (str_lower (default "" (pt_speed p))) = true) as Hperm' by now rewrite Hd.
  assert (id_partida ∉ partidas_notificadas (dados st)) as Hnin' by now rewrite Hd.
  unfold st2, exec. destruct ok eqn:Hok; unfold ok in Hok.
  - rewrite (iter_send_ok w chat gm st resp' p id_partida opponent
               Hget' Hs' Hj' Hid Hne Hopp Hperm' Hnin' white Hw Hok).
    split; [reflexivity|]. intros _. cbn. apply elem_of_union. left.
    now apply elem_of_singleton.
  - rewrite (iter_send_error w chat gm st resp' p id_partida opponent
               Hget' Hs' Hj' Hid Hne Hopp Hperm' Hnin' white Hw Hok).
    split; [reflexivity|discriminate].
Qed.

(** X13. An answer other than 200 (nobody playing) and a 200 answer whose
    document lacks the id or the opponent are skipped silently by both
    checks: nothing is sent and nothing is logged.  A request that raises
    and a 200 answer that is not JSON send nothing either, but leave
    exactly one error in the log, which names the player. *)
Theorem X13_only_exceptions_are_logged
    (w : World) (chat : Z) (gm : string) (s : State) :
  let agendada := exec (verificar_partidas_iter w chat gm) s in
  let manual := exec (verificar_agora_iter w chat gm) s in
  let r := client_get w (clock s) (url_current_game gm) in
  (∀ resp, r = Some resp →
     status_code resp ≠ 200 ∨
     (status_code resp = 200 ∧ ∃ p, json resp = Some p ∧ malformada p = true) →
     (log agendada = log s ∧ sends agendada = sends s ∧ dados agendada = dados s) ∧
     (log manual = log s ∧ sends manual = sends s)) ∧
  (r = None →
     (log agendada = log s ++ [LError ("Erro ao verificar " +:+ gm) HTTPError] ∧
      sends agendada = sends s ∧ dados agendada = dados s) ∧
     (log manual = log s ++ [LError ("Erro na verificação manual de " +:+ gm) HTTPError] ∧
      sends manual = sends s)) ∧
  (∀ resp, r = Some resp → status_code resp = 200 → json resp = None →
     (log agendada = log s ++ [LError ("Erro ao verificar " +:+ gm) JSONDecodeError] ∧
      sends agendada = sends s ∧ dados agendada = dados s) ∧
     (log manual = log s ++
        [LError ("Erro na verificação manual de " +:+ gm) JSONDecodeError] ∧
      sends manual = sends s)).
Proof.
  intros agendada manual r. unfold agendada, manual, exec. split_and!.
  - intros resp Hget [Hs | (Hs & p & Hj & Hm)].
    + rewrite (iter_not_200 w chat gm s resp Hget Hs),
              (agora_not_200 w chat gm s resp Hget Hs). now split_and!.
    + rewrite (iter_malformada w chat gm s resp p Hget Hs Hj Hm),
              (agora_malformada w chat gm s resp p Hget Hs Hj Hm). now split_and!.
  - intros Hget.
    rewrite (iter_http_error w chat gm s Hget), (agora_http_error w chat gm s Hget).
    now split_and!.
  - intros resp Hget Hs Hj.
    rewrite (iter_json_error w chat gm s resp Hget Hs Hj),
            (agora_json_error w chat gm s resp Hget Hs Hj).
    now split_and!.
Qed.

(** X14. A game document with id and opponent but without the white
    player's name makes the scheduled iteration fail on the lookup of the
    colour: when the game passes the filter and is new, nothing is sent,
    [dados] is unchanged and a [KeyError] is logged.  The manual check
    does not look up the colour and reports the same game. *)
Theorem X14_missing_white_name
    (w : World) (chat : Z) (gm : string) (s : State) (resp : Response) (p : Partida)
    (id_partida : string) (opponent : option string) :
  client_get w (clock s) (url_current_game gm) = Some resp →
  status_code resp = 200 → json resp = Some p →
  pt_id p = Some id_partida → id_partida ≠ "" →
  pt_opponent p = Some opponent →
  pt_white_name p = None →
  ritmo_permitido (ritmos_permitidos (dados s)) (str_lower (default "" (pt_speed p))) = true →
  id_partida ∉ partidas_notificadas (dados s) →
  let agendada := exec (verificar_partidas_iter w chat gm) s in
  let manual := exec (verificar_agora_iter w chat gm) s in
  let text := mensagem_manual_de gm p id_partida opponent in
  sends agendada = sends s ∧ dados agendada = dados s ∧ arquivo agendada = arquivo s ∧
  log agendada = log s ++ [LError ("Erro ao verificar " +:+ gm) KeyError] ∧
  sends manual = sends s ++ [(chat, text, bot_send_message w (S (clock s)) chat text)].
Proof.
  intros Hget Hs Hj Hid Hne Hopp Hw Hperm Hnin agendada manual text.
  unfold agendada, manual, exec.
  rewrite (iter_key_error w chat gm s resp p id_partida opponent
             Hget Hs Hj Hid Hne Hopp Hperm Hnin Hw).
  pose proof (agora_send w chat gm s resp p id_partida opponent Hget Hs Hj Hid Hne Hopp)
    as E. cbv zeta in E. rewrite E. fold text.
  split_and!; try reflexivity. now destruct (bot_send_message _ _ _ _).
Qed.

(** X15. A game document without a speed is read as the empty speed by
    the scheduled cycle: with no filter it is notified like any other
    game, but under any non-empty filter of valid speeds it is skipped
    silently.  The manual check reports it with the speed shown as
    [Desconhecido]. *)
Theorem X15_missing_speed
    (w : World) (chat : Z) (gm : string) (s : State) (resp : Response) (p : Partida)
    (id_partida : string) (opponent : option string) :
  client_get w (clock s) (url_current_game gm) = Some resp →
  status_code resp = 200 → json resp = Some p →
  pt_id p = Some id_partida → id_partida ≠ "" →
  pt_opponent p = Some opponent →
  pt_speed p = None →
  let agendada := exec (verificar_partidas_iter w chat gm) s in
  let manual := exec (verificar_agora_iter w chat gm) s in
  (ritmos_permitidos (dados s) ≠ [] → filtro_valido (ritmos_permitidos (dados s)) →
     sends agendada = sends s ∧ dados agendada = dados s ∧ log agendada = log s) ∧
  (ritmos_permitidos (dados s) = [] →
   id_partida ∉ partidas_notificadas (dados s) →
   ∀ white, pt_white_name p = Some white →
     ∃ ok, sends agendada = sends s ++
       [(chat, mensagem_automatica gm (default "Desconhecido" opponent) ""
                 (cor_de white gm) (link_da_partida id_partida), ok)]) ∧
  (∃ ok, sends manual = sends s ++
     [(chat, mensagem_manual gm (default "Desconhecido" opponent) "Desconhecido"
               (link_da_partida id_partida), ok)]).
Proof.
  intros Hget Hs Hj Hid Hne Hopp Hsp agendada manual. split_and!.
  - intros Hnonempty Hval.
    assert (ritmo_permitido (ritmos_permitidos (dados s))
              (str_lower (default "" (pt_speed p))) = false) as Hperm.
    { rewrite Hsp. apply ritmo_permitido_false. split; [exact Hnonempty|].
      intros Hin. unfold filtro_valido in Hval. rewrite Forall_forall in Hval.
      apply Hval in Hin. unfold ritmos_validos in Hin.
      repeat (apply elem_of_cons in Hin as [Hin|Hin]; [discriminate|]).
      now apply elem_of_nil in Hin. }
    unfold agendada, exec.
    rewrite (iter_ritmo_filtrado w chat gm s resp p id_partida opponent
               Hget Hs Hj Hid Hne Hopp Hperm). now split_and!.
  - intros Hempty Hnin white Hw.
    assert (ritmo_permitido (ritmos_permitidos (dados s))
              (str_lower (default "" (pt_speed p))) = true) as Hperm
      by (apply ritmo_permitido_true; now left).
    unfold agendada, exec.
    destruct (bot_send_message w (S (clock s)) chat
                (mensagem_de gm p id_partida opponent white)) eqn:Hsend.
    + rewrite (iter_send_ok w chat gm s resp p id_partida opponent
                 Hget Hs Hj Hid Hne Hopp Hperm Hnin white Hw Hsend).
      exists true. unfold mensagem_de. rewrite Hsp. reflexivity.
    + rewrite (iter_send_error w chat gm s resp p id_partida opponent
                 Hget Hs Hj Hid Hne Hopp Hperm Hnin white Hw Hsend).
      exists false. unfold mensagem_de. rewrite Hsp. reflexivity.
  - pose proof (agora_send w chat gm s resp p id_partida opponent Hget Hs Hj Hid Hne Hopp)
      as E. cbv zeta in E. unfold manual, exec. rewrite E. clear E.
    unfold mensagem_manual_de. rewrite Hsp.
    destruct (bot_send_message _ _ _ _); eexists; reflexivity.
Qed.

(** ** How much one check requests and sends *)

Lemma for_in_iter_sends (w : World) (chat : Z) (gms : list string) (s : State) :
  ∃ st,
    for_in gms (verificar_partidas_iter w chat) s = (Val tt, st) ∧
    (length (sends st) ≤ length (sends s) + length gms)%nat.
Proof.
  revert s. induction gms as [|gm gms IH]; intros s.
  - exists s. split; [reflexivity|]. cbn. lia.
  - destruct (verificar_partidas_iter_spec w chat gm s)
      as (r & s1 & E & Hr & _ & _ & _ & Hout).
    destruct (IH s1) as (st & Efor & Hlen).
    exists st. split.
    { cbn [for_in]. rewrite E. now destruct Hr as [-> | ->]. }
    assert (length (sends s1) ≤ S (length (sends s)))%nat as H1.
    { destruct Hout as [_ _ Hs | p i o wh _ _ Hs | p i o wh _ _ _ Hs]; rewrite Hs;
        rewrite ?length_app; cbn; lia. }
    cbn [length]. lia.
Qed.

(** X16. With a chat registered, either check asks lichess once for each
    entry of the monitored list and calls [send_message] at most once per
    entry; the manual check adds at most two replies. *)
Theorem X16_one_request_per_player (w : World) (s : State) (chat : Z) :
  chat_id (dados s) = Some chat → chat ≠ 0 →
  let n := length (gms_a_monitorar (dados s)) in
  let agendada := exec (verificar_partidas w) s in
  let manual := exec (verificar_agora w) s in
  (length (requests agendada) = length (requests s) + n)%nat ∧
  (length (sends agendada) ≤ length (sends s) + n)%nat ∧
  (length (requests manual) = length (requests s) + n)%nat ∧
  (length (sends manual) ≤ length (sends s) + n)%nat ∧
  (length (replies manual) ≤ length (replies s) + 2)%nat ∧
  replies agendada = replies s.
Proof.
  intros Hc Hne n agendada manual.
  (* the scheduled cycle *)
  destruct (verificar_partidas_loop_spec w chat (gms_a_monitorar (dados s))
              (apos_log (LInfo "Iniciando verificação de partidas...") s))
    as (st & ids & news & E & Hpost).
  destruct (for_in_iter_sends w chat (gms_a_monitorar (dados s))
              (apos_log (LInfo "Iniciando verificação de partidas...") s))
    as (st' & E' & Hlen).
  assert (st' = st) as -> by congruence.
  assert (agendada = st) as Ha.
  { unfold agendada, exec. now rewrite (verificar_partidas_com_chat w s chat Hc Hne), E. }
  destruct Hpost as (Preq & Prep & _).
  (* the manual check *)
  set (s0 := with_jogos 0 (with_replies
               (replies s ++ ["Verificando os GMs, um momento..."]) s)).
  destruct (verificar_agora_loop_spec w chat (gms_a_monitorar (dados s)) s0)
    as (sm & reqs & newsm & Em & Hm).
  destruct Hm as (M1 & M2 & M3 & _ & _ & M6 & _ & M8 & _).
  assert (manual = if (jogos_encontrados sm =? 0)%nat
                   then with_replies (replies sm ++ [msg_ninguem]) sm else sm) as Hman.
  { unfold manual, exec. rewrite (verificar_agora_com_chat w s chat Hc Hne).
    cbv zeta. fold s0. unfold exec. now rewrite Em. }
  assert (length reqs = n) as Hreqs.
  { unfold n. rewrite <- (length_map fst reqs), M2. apply length_map. }
  split_and!.
  - rewrite Ha. rewrite <- (length_map fst (requests st)), Preq, length_app, !length_map.
    reflexivity.
  - rewrite Ha. exact Hlen.
  - rewrite Hman.
    assert (requests (if (jogos_encontrados sm =? 0)%nat
                      then with_replies (replies sm ++ [msg_ninguem]) sm else sm)
            = requests sm) as -> by now destruct (_ =? _)%nat.
    rewrite M1, length_app, Hreqs. reflexivity.
  - rewrite Hman.
    assert (sends (if (jogos_encontrados sm =? 0)%nat
                   then with_replies (replies sm ++ [msg_ninguem]) sm else sm)
            = sends sm) as -> by now destruct (_ =? _)%nat.
    rewrite M3, length_app, M8. cbn [s0 with_jogos with_replies sends].
    pose proof (length_filter (λ r : string * option Response, bem_formada r.2 = true) reqs).
    lia.
  - rewrite Hman. destruct (_ =? _)%nat; cbn [with_replies replies];
      rewrite ?length_app, M6; cbn [s0 with_jogos with_replies replies];
      rewrite length_app; cbn; lia.
  - rewrite Ha. exact Prep.
Qed.

(** ** The theorems above at example data *)

Lemma X12_failed_send_is_retried_witness :
  dados (exec (verificar_partidas_iter ex_world_envio_falha 42 "alice") (ex_state ex_dados))
  = ex_dados.
Proof.
  refine (proj1 (X12_failed_send_is_retried ex_world_envio_falha 42 "alice"
                   (ex_state ex_dados) (mkResponse 200 (Some ex_partida)) ex_partida
                   "g1" (Some "bob") "alice"
                   eq_refl eq_refl eq_refl eq_refl _ eq_refl eq_refl eq_refl _ eq_refl)).
  - discriminate.
  - apply not_elem_of_empty.
Defined.

Lemma X14_missing_white_name_witness :
  sends (exec (verificar_partidas_iter ex_world_sem_brancas 42 "alice") (ex_state ex_dados))
  = [].
Proof.
  refine (proj1 (X14_missing_white_name ex_world_sem_brancas 42 "alice"
                   (ex_state ex_dados) (mkResponse 200 (Some ex_partida_sem_brancas))
                   ex_partida_sem_brancas "g1" (Some "bob")
                   eq_refl eq_refl eq_refl eq_refl _ eq_refl eq_refl eq_refl _)).
  - discriminate.
  - apply not_elem_of_empty.
Defined.

Lemma X15_missing_speed_witness :
  sends (exec (verificar_partidas_iter ex_world_sem_ritmo 42 "alice")
           (ex_state ex_dados_bullet)) = [].
Proof.
  refine (proj1 (proj1 (X15_missing_speed ex_world_sem_ritmo 42 "alice"
                   (ex_state ex_dados_bullet) (mkResponse 200 (Some ex_partida_sem_ritmo))
                   ex_partida_sem_ritmo "g1" (Some "bob")
                   eq_refl eq_refl eq_refl eq_refl _ eq_refl eq_refl) _ _)).
  - discriminate.
  - discriminate.
  - repeat constructor.
Defined.

Lemma X16_one_request_per_player_witness :
  (length (requests (exec (verificar_partidas ex_world) (ex_state ex_dados_dois))) = 0 + 2)%nat.
Proof.
  refine (proj1 (X16_one_request_per_player ex_world (ex_state ex_dados_dois) 42
                   eq_refl _)).
  discriminate.
Defined.
